(** * RFID reader driver (src/rfid.py): protocol core

    A shallow embedding of the [RFID] class of [src/rfid.py]: register
    access over the I2C bus, the command runner [_tocard], the CRC
    co-processor [_crc], the REQA / anticollision / select cascade and the
    stand-alone [readTagID] / [tagPresent] entry points.

    Python integers are [Z]; a byte read from the bus is a [Byte.byte],
    turned into an integer the way [val[0]] does.  The bus is an interface
    ([I2C]); every driver function threads the bus state explicitly.

    [bytes(...)] in [_wreg] and [_wfifo] raises on an integer outside
    0..255.  The model hands the integers to the bus as they are; that
    only bytes are written on the path of [readTagID] is proved in section
    [BusInvariant].  The one place where an exception is reachable by the
    text of the code, the [TypeError] of [antennaOff], is modelled by an
    [option]. *)

From Stdlib Require Import ZArith List Bool String Ascii HexString Lia.
From Stdlib Require Import Strings.Byte.
Import ListNotations.

Local Open Scope Z_scope.

(** ** Module-level constants (lines 19-59) *)

Definition _I2C_ADDRESS        : Z := 0x2C.

Definition _REG_COMMAND        : Z := 0x01.
Definition _REG_COM_I_EN       : Z := 0x02.
Definition _REG_DIV_I_EN       : Z := 0x03.
Definition _REG_COM_IRQ        : Z := 0x04.
Definition _REG_DIV_IRQ        : Z := 0x05.
Definition _REG_ERROR          : Z := 0x06.
Definition _REG_FIFO_DATA      : Z := 0x09.
Definition _REG_FIFO_LEVEL     : Z := 0x0A.
Definition _REG_CONTROL        : Z := 0x0C.
Definition _REG_BIT_FRAMING    : Z := 0x0D.
Definition _REG_TX_CONTROL     : Z := 0x14.
Definition _REG_CRC_RESULT_MSB : Z := 0x21.
Definition _REG_CRC_RESULT_LSB : Z := 0x22.
Definition _CMD_IDLE           : Z := 0x00.
Definition _CMD_CALC_CRC       : Z := 0x03.
Definition _CMD_TRANCEIVE      : Z := 0x0C.
Definition _CMD_MF_AUTHENT     : Z := 0x0E.
Definition _CMD_SOFT_RESET     : Z := 0x0F.

Definition _TAG_CMD_REQIDL  : Z := 0x26.
Definition _TAG_CMD_ANTCOL1 : Z := 0x93.
Definition _TAG_CMD_ANTCOL2 : Z := 0x95.
Definition _TAG_CMD_ANTCOL3 : Z := 0x97.

(** Registers written by the constructor only. *)
Definition _REG_MODE        : Z := 0x11.
Definition _REG_TX_ASK      : Z := 0x15.
Definition _REG_T_MODE      : Z := 0x2A.
Definition _REG_T_PRESCALER : Z := 0x2B.
Definition _REG_T_RELOAD_HI : Z := 0x2C.
Definition _REG_T_RELOAD_LO : Z := 0x2D.

(** ** The bus interface

    The driver only ever calls [i2c.readfrom_mem(address, reg, 1)] and
    [i2c.writeto_mem(address, reg, data)].  A read yields one byte and the
    next bus state; a write yields the next bus state. *)

Class I2C (D : Type) : Type := {
  readfrom_mem : D -> Z -> Z -> byte * D;
  writeto_mem  : D -> Z -> Z -> list Z -> D
}.

(** Python helpers used by the driver. *)

(** [truthy v]: an integer in a condition ([if v:]). *)
Definition truthy (v : Z) : bool := negb (v =? 0).

(** [l[a:b]] for non-negative literal bounds. *)
Definition slice {A : Type} (a b : nat) (l : list A) : list A :=
  firstn (b - a) (skipn a l).

(** [s[n:]] on a string. *)
Fixpoint str_from (n : nat) (s : string) : string :=
  match n, s with
  | O, _ => s
  | S _, EmptyString => EmptyString
  | S k, String _ t => str_from k t
  end.

(** [hex(v)]: ["0x"] and lowercase digits, ["-0x.."] below zero. *)
Definition hex (v : Z) : string := HexString.of_Z v.

(** [str.upper()] on the ASCII range. *)
Definition upper_ascii (c : ascii) : ascii :=
  let n := nat_of_ascii c in
  if ((97 <=? n) && (n <=? 122))%nat then ascii_of_nat (n - 32) else c.

Fixpoint upper (s : string) : string :=
  match s with
  | EmptyString => EmptyString
  | String c t => String (upper_ascii c) (upper t)
  end.

(** ** The formatted identifier, as the specification words it

    [colon_hex] is the colon-separated rendering of a byte sequence with
    two uppercase hexadecimal digits per byte; [parse_uid] reads such a
    string back: split on [":"], then decode each piece as hexadecimal. *)

Definition is_byte (v : Z) : Prop := 0 <= v < 256.

Definition hex_digit_upper (v : Z) : ascii :=
  if v <? 10 then ascii_of_nat (48 + Z.to_nat v)
  else ascii_of_nat (55 + Z.to_nat v).

Definition two_hex_upper (b : Z) : string :=
  String (hex_digit_upper (b / 16)) (String (hex_digit_upper (b mod 16)) EmptyString).

Definition colon_hex (l : list Z) : string :=
  String.concat ":" (map two_hex_upper l).

(** [s.split(sep)] for a one-character separator. *)
Fixpoint split_on (sep : ascii) (s : string) : list string :=
  match s with
  | EmptyString => [EmptyString]
  | String c t =>
      if Ascii.eqb c sep then EmptyString :: split_on sep t
      else match split_on sep t with
           | [] => [String c EmptyString]
           | p :: ps => String c p :: ps
           end
  end.

(** The value of a non-empty string of hexadecimal digits, [acc] being the
    value of the digits already read. *)
Fixpoint hex_value_from (acc : Z) (s : string) : option Z :=
  match s with
  | EmptyString => Some acc
  | String c t =>
      match HexString.ascii_to_digit c with
      | Some v => hex_value_from (16 * acc + Z.of_N v) t
      | None => None
      end
  end.

Definition hex_value (s : string) : option Z :=
  match s with
  | EmptyString => None
  | _ => hex_value_from 0 s
  end.

Fixpoint all_some {A : Type} (l : list (option A)) : option (list A) :=
  match l with
  | [] => Some []
  | None :: _ => None
  | Some x :: t =>
      match all_some t with
      | Some r => Some (x :: r)
      | None => None
      end
  end.

Definition parse_uid (s : string) : option (list Z) :=
  all_some (map hex_value (split_on ":" s)).

Module RFID.

(** Class constants [OK = 1], [NOTAGERR = 2], [ERR = 3]. *)
Inductive status : Type := OK | NOTAGERR | ERR.

Definition status_eqb (a b : status) : bool :=
  match a, b with
  | OK, OK | NOTAGERR, NOTAGERR | ERR, ERR => true
  | _, _ => false
  end.

(** The dictionary returned by [_readTagID] and [readTagID]. *)
Record tag_result : Type := {
  success      : bool;
  id_integers  : list Z;
  id_formatted : string;
  type         : string
}.

(** The dictionary returned by [_detectTag]. *)
Record detect_result : Type := {
  present : bool;
  ATQA    : Z
}.

Section Driver.

Context {D : Type} `{I2C D}.
Variable address : Z.

(** *** Register access (lines 94-113) *)

Definition _wreg (reg val : Z) (d : D) : D :=
  writeto_mem d address reg [val].

Definition _wfifo (reg : Z) (val : list Z) (d : D) : D :=
  writeto_mem d address reg val.

Definition _rreg (reg : Z) (d : D) : Z * D :=
  let (val, d) := readfrom_mem d address reg in
  (Z.of_N (Byte.to_N val), d).

Definition _sflags (reg mask : Z) (d : D) : D :=
  let (current_value, d) := _rreg reg d in
  _wreg reg (Z.lor current_value mask) d.

Definition _cflags (reg mask : Z) (d : D) : D :=
  let (v, d) := _rreg reg d in
  _wreg reg (Z.land v (Z.lnot mask)) d.

(** *** The command runner (lines 116-171) *)

(** The completion poll of lines 138-146.  The argument [i] is the value
    of the counter after the [i -= 1] of the current iteration, so the
    loop started from [i = 20000] is [tocard_poll wait_irq (Z.to_nat (20000 - 1))]. *)
Fixpoint tocard_poll (wait_irq : Z) (i : nat) (d : D) : Z * nat * D :=
  let (n, d) := _rreg _REG_COM_IRQ d in
  if truthy (Z.land n wait_irq) then (n, i, d)
  else if truthy (Z.land n 0x01) then (n, i, d)
  else match i with
       | O => (n, O, d)
       | S i' => tocard_poll wait_irq i' d
       end.

(** [for _ in range(n): recv.append(self._rreg(_REG_FIFO_DATA))]. *)
Fixpoint drain_fifo (n : nat) (d : D) : list Z * D :=
  match n with
  | O => ([], d)
  | S k =>
      let (b, d) := _rreg _REG_FIFO_DATA d in
      let (recv, d) := drain_fifo k d in
      (b :: recv, d)
  end.

(** Lines 121-135: interrupt masks, FIFO load, command start. *)
Definition tocard_irq_en (cmd : Z) : Z :=
  if cmd =? _CMD_MF_AUTHENT then 0x12
  else if cmd =? _CMD_TRANCEIVE then 0x77 else 0.

Definition tocard_wait_irq (cmd : Z) : Z :=
  if cmd =? _CMD_MF_AUTHENT then 0x10
  else if cmd =? _CMD_TRANCEIVE then 0x30 else 0.

Definition tocard_start (cmd : Z) (send : list Z) (d : D) : D :=
  let d := _wreg _REG_COMMAND _CMD_IDLE d in
  let d := _wreg _REG_COM_IRQ 0x7F d in
  let d := _sflags _REG_FIFO_LEVEL 0x80 d in
  let d := _wfifo _REG_FIFO_DATA send d in
  let d := if cmd =? _CMD_TRANCEIVE then _sflags _REG_BIT_FRAMING 0x00 d else d in
  let d := _wreg _REG_COMMAND cmd d in
  if cmd =? _CMD_TRANCEIVE then _sflags _REG_BIT_FRAMING 0x80 d else d.

(** Lines 156-168: bit length and bytes of the response. *)
Definition tocard_receive (d : D) : list Z * Z * D :=
  let (n, d) := _rreg _REG_FIFO_LEVEL d in
  let (c, d) := _rreg _REG_CONTROL d in
  let lbits := Z.land c 0x07 in
  let bits := if negb (lbits =? 0) then (n - 1) * 8 + lbits else n * 8 in
  let n := if n =? 0 then 1 else if n >? 16 then 16 else n in
  let (recv, d) := drain_fifo (Z.to_nat n) d in
  (recv, bits, d).

(** Lines 147-171: what is made of the poll's result. *)
Definition tocard_finish (cmd n : Z) (i : nat) (d : D)
  : status * list Z * Z * D :=
  let irq_en := tocard_irq_en cmd in
  let d := _cflags _REG_BIT_FRAMING 0x80 d in
  match i with
  | O => (ERR, [], 0, d)
  | S _ =>
      let (e, d) := _rreg _REG_ERROR d in
      if Z.land e 0x1B =? 0x00 then
        if truthy (Z.land (Z.land n irq_en) 0x01) then (NOTAGERR, [], 0, d)
        else if cmd =? _CMD_TRANCEIVE then
          let '(recv, bits, d) := tocard_receive d in
          (OK, recv, bits, d)
        else (OK, [], 0, d)
      else (ERR, [], 0, d)
  end.

Definition _tocard (cmd : Z) (send : list Z) (d : D)
  : status * list Z * Z * D :=
  let wait_irq := tocard_wait_irq cmd in
  let d := tocard_start cmd send d in
  let '(n, i, d) := tocard_poll wait_irq (Z.to_nat (20000 - 1)) d in
  tocard_finish cmd n i d.

(** *** The CRC co-processor (lines 174-190) *)

(** [for c in data: self._wreg(_REG_FIFO_DATA, c)]. *)
Fixpoint crc_push (data : list Z) (d : D) : D :=
  match data with
  | [] => d
  | c :: rest => crc_push rest (_wreg _REG_FIFO_DATA c d)
  end.

(** The poll of lines 183-188; [i] is the counter after [i -= 1], the loop
    started from [0xFF] is [crc_poll 254]. *)
Fixpoint crc_poll (i : nat) (d : D) : D :=
  let (n, d) := _rreg _REG_DIV_IRQ d in
  match i with
  | O => d
  | S i' => if truthy (Z.land n 0x04) then d else crc_poll i' d
  end.

Definition _crc (data : list Z) (d : D) : list Z * D :=
  let d := _wreg _REG_COMMAND _CMD_IDLE d in
  let d := _cflags _REG_DIV_IRQ 0x04 d in
  let d := _sflags _REG_FIFO_LEVEL 0x80 d in
  let d := crc_push data d in
  let d := _wreg _REG_COMMAND _CMD_CALC_CRC d in
  let d := crc_poll 254 d in
  let d := _wreg _REG_COMMAND _CMD_IDLE d in
  let (lsb, d) := _rreg _REG_CRC_RESULT_LSB d in
  let (msb, d) := _rreg _REG_CRC_RESULT_MSB d in
  ([lsb; msb], d).

(** *** Request, anticollision, select (lines 193-232) *)

Definition _request (mode : Z) (d : D) : status * Z * D :=
  let d := _wreg _REG_BIT_FRAMING 0x07 d in
  let '(stat, recv, bits, d) := _tocard _CMD_TRANCEIVE [mode] d in
  let stat := if negb (status_eqb stat OK) || negb (bits =? 0x10) then ERR else stat in
  (stat, bits, d).

Definition _anticoll (anticolN : Z) (d : D) : status * list Z * D :=
  let ser := [anticolN; 0x20] in
  let d := _wreg _REG_BIT_FRAMING 0x00 d in
  let '(stat, recv, bits, d) := _tocard _CMD_TRANCEIVE ser d in
  let stat :=
    if status_eqb stat OK then
      if (List.length recv =? 5)%nat then
        let ser_chk := fold_left Z.lxor (firstn 4 recv) 0 in
        if negb (ser_chk =? nth 4 recv 0) then ERR else stat
      else ERR
    else stat in
  (stat, recv, d).

Definition _selectTag (serNum : list Z) (anticolN : Z) (d : D) : Z * D :=
  let buf := [anticolN; 0x70] ++ serNum in
  let (pOut, d) := _crc buf d in
  let buf := buf ++ [nth 0 pOut 0; nth 1 pOut 0] in
  let '(status, backData, backLen, d) := _tocard 0x0C buf d in
  if status_eqb status OK && (backLen =? 0x18) then (1, d) else (0, d).

(** *** Identification (lines 235-271) *)

(** The loop of lines 262-267 over [id], [i] being the index of the head. *)
Fixpoint format_loop (i : nat) (id : list Z) (id_formatted : string) : string :=
  match id with
  | [] => id_formatted
  | b :: rest =>
      let s := if (0 <? i)%nat then (id_formatted ++ ":")%string else id_formatted in
      let s := if b <? 16 then (s ++ "0")%string else s in
      let s := (s ++ str_from 2 (hex b))%string in
      format_loop (S i) rest s
  end.

(** The initial [result] dictionary of line 236. *)
Definition result0 : tag_result :=
  {| success := false; id_integers := []; id_formatted := ""; type := "" |}.

(** Lines 259-271, reached with the fragment [uid] of the last level. *)
Definition finish (valid_uid uid : list Z) (d : D) : tag_result * D :=
  let valid_uid := valid_uid ++ slice 0 5 uid in
  let id := firstn (List.length valid_uid - 1) valid_uid in
  let id_formatted := format_loop 0 id "" in
  let type := if (List.length id =? 4)%nat then "classic"%string else "ntag"%string in
  ({| success := true; id_integers := id;
      id_formatted := upper id_formatted; type := type |}, d).

(** Lines 256-259: the body of [if uid[0] == 0x88] at level 2, entered with
    [valid_uid] already extended by the level-2 [uid[1:4]]. *)
Definition level3 (valid_uid : list Z) (d : D) : tag_result * D :=
  let '(status, uid, d) := _anticoll _TAG_CMD_ANTCOL3 d in
  if negb (status_eqb status OK) then (result0, d)
  else finish valid_uid uid d.

(** Lines 247-259: the body of [if uid[0] == 0x88] at level 1, entered with
    [valid_uid] already extended by the level-1 [uid[1:4]]. *)
Definition level2 (valid_uid : list Z) (d : D) : tag_result * D :=
  let '(status, uid, d) := _anticoll _TAG_CMD_ANTCOL2 d in
  if negb (status_eqb status OK) then (result0, d)
  else
    let (rtn, d) := _selectTag uid _TAG_CMD_ANTCOL2 d in
    if rtn =? 0 then (result0, d)
    else if nth 0 uid 0 =? 0x88 then level3 (valid_uid ++ slice 1 4 uid) d
    else finish valid_uid uid d.

(** [uid[0]] is read only after [_anticoll] returned [OK], when [uid] has
    five entries, so the default of [nth] is never used. *)
Definition _readTagID (d : D) : tag_result * D :=
  let valid_uid : list Z := [] in
  let '(status, uid, d) := _anticoll _TAG_CMD_ANTCOL1 d in
  if negb (status_eqb status OK) then (result0, d)
  else
    let (sel, d) := _selectTag uid _TAG_CMD_ANTCOL1 d in
    if sel =? 0 then (result0, d)
    else if nth 0 uid 0 =? 0x88 then level2 (valid_uid ++ slice 1 4 uid) d
    else finish valid_uid uid d.

(** *** The object state and the stand-alone entry points (lines 274-320) *)

Record self : Type := {
  i2c : D;
  _tag_present : bool;
  _read_tag_id_success : bool
}.

Definition _detectTag (s : self) : detect_result * self :=
  let '(stat, atqa, d) := _request _TAG_CMD_REQIDL (i2c s) in
  let _present := status_eqb stat OK in
  ({| present := _present; ATQA := atqa |},
   {| i2c := d; _tag_present := _present;
      _read_tag_id_success := _read_tag_id_success s |}).

Definition reset (d : D) : D := _wreg _REG_COMMAND _CMD_SOFT_RESET d.

Definition antennaOn (d : D) : D :=
  let (v, d) := _rreg _REG_TX_CONTROL d in
  if truthy (Z.lnot (Z.land v 0x03)) then _sflags _REG_TX_CONTROL 0x83 d else d.

(** Line 294 hands [_cflags] the bytes object [b'\x03'] as its mask; [~] on
    it raises [TypeError] after the register read of [_cflags], which is
    the [None] below. *)
Definition antennaOff (d : D) : option D :=
  let (v, d) := _rreg _REG_TX_CONTROL d in
  if negb (truthy (Z.lnot (Z.land v 0x03))) then
    let (_, _) := _rreg _REG_TX_CONTROL d in None
  else Some d.

(** The failure dictionary of line 308. *)
Definition read_failed : tag_result :=
  {| success := false; id_integers := [0]; id_formatted := ""; type := "" |}.

(** Lines 299-301: detection, tried once more when the first try finds
    no tag. *)
Definition detect_retry (s : self) : detect_result * self :=
  let (detect_tag_result, s) := _detectTag s in
  if negb (present detect_tag_result) then _detectTag s
  else (detect_tag_result, s).

Definition readTagID (s : self) : tag_result * self :=
  let (detect_tag_result, s) := detect_retry s in
  if present detect_tag_result then
    let (read_tag_id_result, d) := _readTagID (i2c s) in
    if success read_tag_id_result then
      ({| success := success read_tag_id_result;
          id_integers := id_integers read_tag_id_result;
          id_formatted := id_formatted read_tag_id_result;
          type := type read_tag_id_result |},
       {| i2c := d; _tag_present := _tag_present s;
          _read_tag_id_success := true |})
    else
      (read_failed,
       {| i2c := d; _tag_present := _tag_present s;
          _read_tag_id_success := false |})
  else
    (read_failed,
     {| i2c := i2c s; _tag_present := _tag_present s;
        _read_tag_id_success := false |}).

Definition readID (detail : bool) (s : self) : (string + tag_result) * self :=
  let (tagId, s) := readTagID s in
  if negb detail then (inl (id_formatted tagId), s) else (inr tagId, s).

Definition tagPresent (s : self) : bool * self :=
  let (id, s) := readTagID s in
  (success id, s).

(** *** Notions used to state the properties *)

(** One more read of the interrupt-request register. *)
Definition read_irq (d : D) : D := snd (_rreg _REG_COM_IRQ d).

(** Neither the wait bit nor the timer bit 0x01 shows in any of the next
    [k] reads of the interrupt-request register. *)
Fixpoint irq_quiet (wait_irq : Z) (k : nat) (d : D) : bool :=
  match k with
  | O => true
  | S k' =>
      let (n, d) := _rreg _REG_COM_IRQ d in
      negb (truthy (Z.land n wait_irq)) && negb (truthy (Z.land n 0x01))
      && irq_quiet wait_irq k' d
  end.

(** The cascade of [_readTagID] fails from bus state [d]: an anticollision
    that does not return [OK] (command error, wrong length or checksum
    mismatch) at level 1, 2 or 3, or a select that returns 0 at level 1 or
    2.  Levels 2 and 3 are only reached through a fragment starting with
    the cascade tag 0x88. *)
Inductive cascade_failure (d : D) : Prop :=
| fail_anticoll1 st uid d1 :
    _anticoll _TAG_CMD_ANTCOL1 d = (st, uid, d1) -> st <> OK ->
    cascade_failure d
| fail_select1 uid d1 d2 :
    _anticoll _TAG_CMD_ANTCOL1 d = (OK, uid, d1) ->
    _selectTag uid _TAG_CMD_ANTCOL1 d1 = (0, d2) ->
    cascade_failure d
| fail_anticoll2 uid d1 r1 d2 st uid2 d3 :
    _anticoll _TAG_CMD_ANTCOL1 d = (OK, uid, d1) ->
    _selectTag uid _TAG_CMD_ANTCOL1 d1 = (r1, d2) -> r1 <> 0 ->
    nth 0 uid 0 = 0x88 ->
    _anticoll _TAG_CMD_ANTCOL2 d2 = (st, uid2, d3) -> st <> OK ->
    cascade_failure d
| fail_select2 uid d1 r1 d2 uid2 d3 d4 :
    _anticoll _TAG_CMD_ANTCOL1 d = (OK, uid, d1) ->
    _selectTag uid _TAG_CMD_ANTCOL1 d1 = (r1, d2) -> r1 <> 0 ->
    nth 0 uid 0 = 0x88 ->
    _anticoll _TAG_CMD_ANTCOL2 d2 = (OK, uid2, d3) ->
    _selectTag uid2 _TAG_CMD_ANTCOL2 d3 = (0, d4) ->
    cascade_failure d
| fail_anticoll3 uid d1 r1 d2 uid2 d3 r2 d4 st uid3 d5 :
    _anticoll _TAG_CMD_ANTCOL1 d = (OK, uid, d1) ->
    _selectTag uid _TAG_CMD_ANTCOL1 d1 = (r1, d2) -> r1 <> 0 ->
    nth 0 uid 0 = 0x88 ->
    _anticoll _TAG_CMD_ANTCOL2 d2 = (OK, uid2, d3) ->
    _selectTag uid2 _TAG_CMD_ANTCOL2 d3 = (r2, d4) -> r2 <> 0 ->
    nth 0 uid2 0 = 0x88 ->
    _anticoll _TAG_CMD_ANTCOL3 d4 = (st, uid3, d5) -> st <> OK ->
    cascade_failure d.

End Driver.

(** ** Construction (lines 66-91) *)

Section Construction.

Context {D : Type} `{I2C D}.

(** [max(asw)], [min(asw)] on a non-empty list. *)
Definition list_max (x : Z) (l : list Z) : Z := fold_left Z.max l x.
Definition list_min (x : Z) (l : list Z) : Z := fold_left Z.min l x.

(** Lines 71-75.  [asw] is [Some l] when a list was passed.  [None] is the
    exception the code raises: [ValueError] of [max] on the empty list, or
    the [AssertionError] of line 72. *)
Definition init_address (address : Z) (asw : option (list Z)) : option Z :=
  match asw with
  | Some [] => None
  | Some (x :: rest) =>
      if (list_max x rest <=? 1) && (list_min x rest >=? 0)
         && (List.length (x :: rest) =? 2)%nat
      then Some (_I2C_ADDRESS + nth 0 (x :: rest) 0 + 2 * nth 1 (x :: rest) 0)
      else None
  | None => Some address
  end.

(** The constructor: the address chosen and the object built, [None] when
    line 72 raises.  [sleep_ms(50)] and the warning printed on a micro:bit
    do not touch the bus or the object. *)
Definition __init__ (i2c : D) (address : Z) (asw : option (list Z))
  : option (Z * self) :=
  match init_address address asw with
  | None => None
  | Some address =>
      let d := reset address i2c in
      let d := _wreg address _REG_T_MODE 0x80 d in
      let d := _wreg address _REG_T_PRESCALER 0xA9 d in
      let d := _wreg address _REG_T_RELOAD_HI 0x03 d in
      let d := _wreg address _REG_T_RELOAD_LO 0xE8 d in
      let d := _wreg address _REG_TX_ASK 0x40 d in
      let d := _wreg address _REG_MODE 0x3D d in
      let d := _wreg address _REG_DIV_I_EN 0x80 d in
      let d := _wreg address _REG_COM_I_EN 0x20 d in
      let d := antennaOn address d in
      Some (address,
            {| i2c := d; _tag_present := false; _read_tag_id_success := false |})
  end.

End Construction.

(** ** The allow lists (lines 322-402)

    [self.lists] maps a list name to a list of JSON values.  The file
    system is an interface, as the bus is: reading a file with
    [json.load], writing one with [json.dump] and [uos.remove] each
    succeed or raise, and nothing is assumed of how names map to files or
    of what a write leaves behind.  [print] appends a line to the
    console. *)

#[local] Unset Elimination Schemes.

Inductive json : Type :=
| JNull
| JBool (b : bool)
| JInt (z : Z)
| JFloat (text : string)
| JStr (s : string)
| JList (l : list json)
| JDict (l : list (string * json)).

#[local] Set Elimination Schemes.

Inductive file : Type :=
| NotJson (raw : string)
| Json (v : json).

(** [fs_read]: [open(filename, "r")] and [json.load]; [None] when [open]
    raises [OSError], [NotJson] when [json.load] raises [ValueError],
    otherwise the value loaded.  [fs_write]: [open(filename, "w")] and
    [json.dump]; the boolean is false when [OSError] is raised, and the
    file system may have changed even then.  [fs_remove]: [uos.remove], the
    boolean false when it raises [OSError]. *)
Class FileSystem (F : Type) : Type := {
  fs_read   : F -> string -> option file;
  fs_write  : F -> string -> json -> F * bool;
  fs_remove : F -> string -> F * bool
}.

(** How a call ends: it returns, or an [OSError] propagates out of it. *)
Inductive completion : Type := Returns | RaisesOSError.

(** [m[k] = v] and [del m[k]] on a dictionary keyed by strings. *)
Definition dict_set {V : Type} (m : string -> option V) (k : string)
  (v : option V) : string -> option V :=
  fun k' => if String.eqb k' k then v else m k'.

(** [uuid == e] for the string [uuid] and a JSON value [e]. *)
Definition json_is (uuid : string) (e : json) : bool :=
  match e with
  | JStr s => String.eqb uuid s
  | _ => false
  end.

(** [uuid in l]. *)
Definition contains (uuid : string) (l : list json) : bool :=
  existsb (json_is uuid) l.

(** [l.remove(uuid)], called only when [uuid in l]. *)
Fixpoint list_remove (uuid : string) (l : list json) : list json :=
  match l with
  | [] => []
  | e :: rest => if json_is uuid e then rest else e :: list_remove uuid rest
  end.

(** How many entries of [l] equal the string [uuid]. *)
Definition occurrences (uuid : string) (l : list json) : nat :=
  List.length (filter (json_is uuid) l).

Definition filename_of (list_name : string) : string :=
  (list_name ++ ".json")%string.

Section Lists.

Context {F : Type} `{FileSystem F}.

Record store : Type := {
  lists   : string -> option (list json);
  fs      : F;
  console : list string
}.

(** [list_name in self.lists]. *)
Definition in_lists (list_name : string) (st : store) : bool :=
  match lists st list_name with
  | Some _ => true
  | None => false
  end.

(** [self.lists[list_name]]; the key is present wherever the code
    subscripts (see [loaded_in_lists]), so the default is never used. *)
Definition lists_at (st : store) (list_name : string) : list json :=
  match lists st list_name with
  | Some l => l
  | None => []
  end.

Definition print (line : string) (st : store) : store :=
  {| lists := lists st; fs := fs st; console := console st ++ [line] |}.

Definition set_list (list_name : string) (v : option (list json)) (st : store)
  : store :=
  {| lists := dict_set (lists st) list_name v; fs := fs st;
     console := console st |}.

Definition with_fs (f : F) (st : store) : store :=
  {| lists := lists st; fs := f; console := console st |}.

(** Lines 322-333.  [OSError] and [ValueError] are caught, and a JSON
    value that is not a list is replaced: all three give []. *)
Definition load_list (list_name : string) (st : store) : list json * store :=
  let filename := filename_of list_name in
  let data :=
    match fs_read (fs st) filename with
    | Some (Json (JList data)) => data
    | Some (Json _) => []
    | Some (NotJson _) => []
    | None => []
    end in
  (data, set_list list_name (Some data) st).

(** Lines 335-339.  Nothing catches the [OSError] of the write. *)
Definition save_list (list_name : string) (st : store) : store * completion :=
  match lists st list_name with
  | Some l =>
      let (f, written) := fs_write (fs st) (filename_of list_name) (JList l) in
      (with_fs f st, if written then Returns else RaisesOSError)
  | None => (st, Returns)
  end.

(** Lines 369-372. *)
Definition get_list (list_name : string) (st : store) : list json * store :=
  let st := if in_lists list_name st then st else snd (load_list list_name st) in
  (lists_at st list_name, st).

(** Lines 394-402.  The [OSError] of [uos.remove] is caught. *)
Definition clear_list (list_name : string) (st : store) : store :=
  let filename := filename_of list_name in
  let st := if in_lists list_name st then set_list list_name None st else st in
  let (f, removed) := fs_remove (fs st) filename in
  if removed then print "Remove list success!" (with_fs f st)
  else with_fs f st.

End Lists.

Section AllowList.

Context {D : Type} `{I2C D} {F : Type} `{FileSystem F}.
Variable address : Z.

(** Lines 341-344.  [readID()] is called with [detail] left to [False],
    so it returns the formatted string. *)
Definition scan_card (s : self) : string * self :=
  let (found, s) := tagPresent address s in
  if found then
    let (r, s) := readID address false s in
    (match r with inl formatted => formatted | inr t => id_formatted t end, s)
  else (EmptyString, s).

(** Lines 346-357.  An [OSError] of [save_list] leaves the function after
    the append and before the [print]. *)
Definition scan_and_add_card (list_name : string) (s : self) (st : store)
  : self * store * completion :=
  let st := if in_lists list_name st then st else snd (load_list list_name st) in
  let (uuid, s) := scan_card s in
  if String.eqb uuid "" then (s, st, Returns)
  else if negb (contains uuid (lists_at st list_name)) then
    let st := set_list list_name
                (Some (lists_at st list_name ++ [JStr uuid])) st in
    let (st, saved) := save_list list_name st in
    match saved with
    | Returns => (s, print "Add card success!" st, Returns)
    | RaisesOSError => (s, st, RaisesOSError)
    end
  else (s, st, Returns).

(** Lines 359-367. *)
Definition scan_and_check (list_name : string) (s : self) (st : store)
  : bool * self * store :=
  let st := if in_lists list_name st then st else snd (load_list list_name st) in
  let (uuid, s) := scan_card s in
  if String.eqb uuid "" then (false, s, st)
  else (contains uuid (lists_at st list_name), s, st).

(** Lines 374-392.  The [OSError] of [uos.remove] is caught; the one of
    [save_list] is not and leaves the function before the [print]. *)
Definition scan_and_remove_card (list_name : string) (s : self) (st : store)
  : self * store * completion :=
  let st := if in_lists list_name st then st else snd (load_list list_name st) in
  let (uuid, s) := scan_card s in
  if contains uuid (lists_at st list_name) then
    let rest := list_remove uuid (lists_at st list_name) in
    let st := set_list list_name (Some rest) st in
    match rest with
    | [] =>
        let filename := filename_of list_name in
        let (f, _) := fs_remove (fs st) filename in
        let st := with_fs f st in
        (s, set_list list_name None st, Returns)
    | _ :: _ =>
        let (st, saved) := save_list list_name st in
        match saved with
        | Returns => (s, print "Remove card success!" st, Returns)
        | RaisesOSError => (s, st, RaisesOSError)
        end
    end
  else (s, st, Returns).

(** *** Notions used to state the properties *)

(** One more read of the divider interrupt-request register. *)
Definition read_div_irq (d : D) : D := snd (_rreg address _REG_DIV_IRQ d).

End AllowList.

End RFID.

(** ** Two concrete buses

    [sim] replays a script of bytes, one per read whatever the register,
    zero once the script is used up, and logs every transfer, newest first.
    [regfile] is a plain register file: a read returns the value held, a
    one-byte write stores it. *)

Inductive bus_op : Type :=
| Rd (reg : Z)
| Wr (reg : Z) (data : list Z).

Record sim : Type := {
  script : list Z;
  log    : list bus_op
}.

Definition byte_of_Z (v : Z) : byte :=
  match Byte.of_N (Z.to_N v) with
  | Some b => b
  | None => x00
  end.

#[export] Instance sim_I2C : I2C sim := {|
  readfrom_mem s _ reg :=
    (byte_of_Z (hd 0 (script s)),
     {| script := tl (script s); log := Rd reg :: log s |});
  writeto_mem s _ reg data :=
    {| script := script s; log := Wr reg data :: log s |}
|}.

Definition regfile : Type := Z -> byte.

#[export] Instance regfile_I2C : I2C regfile := {|
  readfrom_mem m _ reg := (m reg, m);
  writeto_mem m _ reg data :=
    match data with
    | [v] => fun r => if r =? reg then byte_of_Z v else m r
    | _ => m
    end
|}.

(** Scripts for [sim]: the bytes one [_tocard] transceive consumes when
    the chip raises the receive interrupt at the first poll and holds
    [fifo] in its FIFO with [lbits] valid bits in the last byte, and the
    bytes one [_crc] consumes when the CRC is ready at the first poll. *)
Definition tocard_reply (fifo : list Z) (lbits : Z) : list Z :=
  [0; 0; 0; 0x30; 0; 0; Z.of_nat (List.length fifo); lbits] ++ fifo.

Definition crc_reply (lsb msb : Z) : list Z := [0; 0; 0x04; lsb; msb].

Definition sim_of (s : list Z) : sim := {| script := s; log := [] |}.

Definition self_of (d : sim) : RFID.self :=
  {| RFID.i2c := d; RFID._tag_present := false;
     RFID._read_tag_id_success := false |}.

(** A select frame for cascade command [anticolN] was written to the FIFO
    in one transfer, as [_tocard] does. *)
Definition select_sent (anticolN : Z) (l : list bus_op) : bool :=
  existsb (fun op =>
    match op with
    | Wr reg (a :: b :: _) =>
        (reg =? _REG_FIFO_DATA) && (a =? anticolN) && (b =? 0x70)
    | _ => false
    end) l.

(** Every write logged by [d] carries bytes only. *)
Definition op_ok (op : bus_op) : Prop :=
  match op with
  | Rd _ => True
  | Wr _ data => Forall is_byte data
  end.

Definition writes_ok (d : sim) : Prop := Forall op_ok (log d).

(** *** Concrete inputs *)

(** The answer to REQA (ATQA, 16 bits) and to a select (24 bits). *)
Definition atqa_reply : list Z := tocard_reply [0x04; 0x00] 0.
Definition select_reply : list Z := crc_reply 0x5A 0xA5 ++ tocard_reply [0x04; 0xDA; 0x17] 0.

(** A four-byte tag: one level. *)
Definition script_one_level : list Z :=
  tocard_reply [0xDE; 0xAD; 0xBE; 0xEF; 0x22] 0 ++ select_reply.

(** A seven-byte tag: two levels. *)
Definition script_two_levels : list Z :=
  tocard_reply [0x88; 0x04; 0x12; 0x34; 0xAA] 0 ++ select_reply
  ++ tocard_reply [0x01; 0x02; 0x03; 0x04; 0x04] 0 ++ select_reply.

(** A ten-byte tag: levels 1 and 2 answer anticollision and select, level
    3 answers the anticollision, and the script ends there. *)
Definition script_three_levels : list Z :=
  tocard_reply [0x88; 0x04; 0x12; 0x34; 0xAA] 0 ++ select_reply
  ++ tocard_reply [0x88; 0x56; 0x78; 0x9A; 0x3C] 0 ++ select_reply
  ++ tocard_reply [0xBC; 0xDE; 0xF0; 0x11; 0x83] 0.

(** A tag that answers REQA and then an anticollision with a wrong
    checksum byte. *)
Definition script_checksum_mismatch : list Z :=
  atqa_reply ++ tocard_reply [0x88; 0x04; 0x12; 0x34; 0x00] 0.

(** The chip reports 17 bytes in its FIFO. *)
Definition script_overfull : list Z :=
  tocard_reply (map Z.of_nat (seq 1 17)) 0.

(** The timer interrupt (bit 0x01) shows at the first poll. *)
Definition script_timer : list Z := [0; 0; 0; 0x01].

(** A register file whose tx-control register has both output bits set. *)
Definition tx_on : regfile :=
  fun reg => if reg =? _REG_TX_CONTROL then Byte.x83 else Byte.x00.

(** *** Further concrete inputs *)

(** One identification of a four-byte tag by [readTagID]: detection, then
    the cascade; [scan_card] makes two of them. *)
Definition script_identify : list Z := atqa_reply ++ script_one_level.
Definition script_scan : list Z := script_identify ++ script_identify.

(** The level-3 fragment of [script_three_levels]. *)
Definition fragment3 : list Z := [0xBC; 0xDE; 0xF0; 0x11; 0x83].

(** Two scans of the same four-byte tag. *)
Definition script_scan_twice : list Z := script_scan ++ script_scan.

(** No tag: the timer interrupt shows at the first poll of both
    detections. *)
Definition script_absent : list Z := [0; 0; 0; 0x01; 0; 0] ++ script_timer.

(** A first detection that finds no tag, then one identification. *)
Definition script_retry : list Z := [0; 0; 0; 0x01; 0; 0] ++ script_identify.

(** A valid level-1 fragment whose select is answered with 16 bits only:
    one not starting with 0x88, and one starting with it. *)
Definition script_select_fails : list Z :=
  tocard_reply [0xDE; 0xAD; 0xBE; 0xEF; 0x22] 0
  ++ crc_reply 0x5A 0xA5 ++ tocard_reply [0x04; 0xDA] 0.

Definition script_select_fails88 : list Z :=
  tocard_reply [0x88; 0x04; 0x12; 0x34; 0xAA] 0
  ++ crc_reply 0x5A 0xA5 ++ tocard_reply [0x04; 0xDA] 0.

(** A frame starting with the bytes [a], [b] was written to the FIFO in
    one transfer: [a = 0x93, 0x95, 0x97] with [b = 0x20] is the
    anticollision of level 1, 2, 3, with [b = 0x70] its select. *)
Definition is_frame (a b : Z) (op : bus_op) : bool :=
  match op with
  | Wr reg (x :: y :: _) => (reg =? _REG_FIFO_DATA) && (x =? a) && (y =? b)
  | _ => false
  end.

Definition frame_sent (a b : Z) (l : list bus_op) : bool :=
  existsb (is_frame a b) l.

(** A file system in memory.  A path with a leading [./] and the path
    without it name one file; when [locked], a write and a removal raise
    and change nothing. *)
Definition path_key (filename : string) : string :=
  match filename with
  | String "."%char (String "/"%char rest) => rest
  | _ => filename
  end.

Record memfs : Type := {
  held   : string -> option RFID.file;
  locked : bool
}.

#[export] Instance memfs_FileSystem : RFID.FileSystem memfs := {|
  RFID.fs_read m filename := held m (path_key filename);
  RFID.fs_write m filename v :=
    if locked m then (m, false)
    else ({| held := RFID.dict_set (held m) (path_key filename)
                       (Some (RFID.Json v));
             locked := false |}, true);
  RFID.fs_remove m filename :=
    if locked m then (m, false)
    else match held m (path_key filename) with
         | Some _ =>
             ({| held := RFID.dict_set (held m) (path_key filename) None;
                 locked := false |}, true)
         | None => (m, false)
         end
|}.

(** No list in memory, no file, nothing printed. *)
Definition store0 : RFID.store :=
  {| RFID.lists := fun _ => None;
     RFID.fs := {| held := fun _ => None; locked := false |};
     RFID.console := [] |}.

(** One list ["door"] in memory and on file, holding one other card. *)
Definition store_door : RFID.store :=
  {| RFID.lists := fun k =>
       if String.eqb k "door" then Some [RFID.JStr "01:02:03:04"] else None;
     RFID.fs :=
       {| held := fun k =>
            if String.eqb k "door.json"
            then Some (RFID.Json (RFID.JList [RFID.JStr "01:02:03:04"]))
            else None;
          locked := false |};
     RFID.console := [] |}.

(** The same, on a file system that refuses every write. *)
Definition store_locked : RFID.store :=
  {| RFID.lists := RFID.lists store_door;
     RFID.fs := {| held := held (RFID.fs store_door); locked := true |};
     RFID.console := [] |}.

(** The same list holding the scanned card as well. *)
Definition store_both : RFID.store :=
  {| RFID.lists := fun k =>
       if String.eqb k "door"
       then Some [RFID.JStr "01:02:03:04"; RFID.JStr "DE:AD:BE:EF"] else None;
     RFID.fs :=
       {| held := fun k =>
            if String.eqb k "door.json"
            then Some (RFID.Json (RFID.JList [RFID.JStr "01:02:03:04";
                                               RFID.JStr "DE:AD:BE:EF"]))
            else None;
          locked := false |};
     RFID.console := [] |}.

(** * Properties *)

Import RFID.

Section Facts.

Context {D : Type} `{I2C D}.
Variable address : Z.

(** ** Bytes and the command runner *)

Lemma rreg_byte reg (d : D) : is_byte (fst (_rreg address reg d)).
Proof.
  unfold _rreg. destruct (readfrom_mem d address reg) as [b d']. cbn [fst].
  pose proof (Byte.to_N_bounded b). unfold is_byte. lia.
Qed.

Lemma drain_fifo_length n (d : D) :
  List.length (fst (drain_fifo address n d)) = n.
Proof.
  revert d. induction n as [|n IH]; intros d; cbn [drain_fifo]; [reflexivity|].
  destruct (_rreg address _REG_FIFO_DATA d) as [b d1].
  specialize (IH d1). destruct (drain_fifo address n d1) as [recv d2].
  cbn [fst List.length] in *. now rewrite IH.
Qed.

Lemma drain_fifo_bytes n (d : D) :
  Forall is_byte (fst (drain_fifo address n d)).
Proof.
  revert d. induction n as [|n IH]; intros d; cbn [drain_fifo]; [constructor|].
  pose proof (rreg_byte _REG_FIFO_DATA d) as Hb.
  destruct (_rreg address _REG_FIFO_DATA d) as [b d1].
  specialize (IH d1). destruct (drain_fifo address n d1) as [recv d2].
  cbn [fst] in *. now constructor.
Qed.

Lemma land7_range c : 0 <= Z.land c 0x07 < 8.
Proof.
  change 0x07 with (Z.ones 3). rewrite Z.land_ones by lia.
  apply Z.mod_pos_bound. reflexivity.
Qed.

(** What [tocard_receive] returns, in terms of the FIFO level it reads. *)
Lemma tocard_receive_spec (d : D) :
  let n := fst (_rreg address _REG_FIFO_LEVEL d) in
  let '(recv, bits, _) := tocard_receive address d in
  Forall is_byte recv /\
  (1 <= List.length recv <= 16)%nat /\
  (n <= 16 -> bits <= 8 * Z.of_nat (List.length recv)) /\
  (16 < n -> List.length recv = 16%nat /\ 128 < bits).
Proof.
  unfold tocard_receive.
  pose proof (rreg_byte _REG_FIFO_LEVEL d) as Hn.
  destruct (_rreg address _REG_FIFO_LEVEL d) as [n d1].
  destruct (_rreg address _REG_CONTROL d1) as [c d2].
  cbn [fst] in *. unfold is_byte in Hn.
  pose proof (land7_range c) as Hl.
  set (k := if n =? 0 then 1 else if n >? 16 then 16 else n).
  pose proof (drain_fifo_length (Z.to_nat k) d2) as Hlen.
  pose proof (drain_fifo_bytes (Z.to_nat k) d2) as Hby.
  destruct (drain_fifo address (Z.to_nat k) d2) as [recv d3].
  cbn [fst] in *. rewrite Hlen. subst k.
  split; [exact Hby|].
  destruct (Z.eqb_spec n 0), (Z.gtb_spec n 16), (Z.eqb_spec (Z.land c 7) 0);
    cbn [negb]; repeat split; intros; try lia.
Qed.

(** The outcomes of [_tocard]: either nothing was received, or the command
    was a transceive that ended [OK] and the response is what
    [tocard_receive] read. *)
Lemma tocard_cases cmd send (d : D) :
  let '(st, recv, bits, d') := _tocard address cmd send d in
  (recv = [] /\ bits = 0) \/
  (st = OK /\ cmd = _CMD_TRANCEIVE /\
   exists d0, tocard_receive address d0 = (recv, bits, d')).
Proof.
  unfold _tocard.
  destruct (tocard_poll address (tocard_wait_irq cmd) (Z.to_nat (20000 - 1))
              (tocard_start address cmd send d)) as [[n i] d1].
  unfold tocard_finish.
  destruct i as [|i]; [now left|].
  destruct (_rreg address _REG_ERROR _) as [e d2].
  destruct (Z.land e 27 =? 0); [|now left].
  destruct (truthy _); [now left|].
  destruct (Z.eqb_spec cmd _CMD_TRANCEIVE) as [->|]; [|now left].
  destruct (tocard_receive address d2) as [[recv bits] d3] eqn:E.
  right. repeat split. now exists d2.
Qed.

End Facts.

Section CommandRunner.

Context {D : Type} `{I2C D}.
Variable address : Z.

(** ** The poll budget *)

Lemma tocard_poll_reads w k (d : D) :
  exists m, (1 <= m <= S k)%nat /\
    snd (tocard_poll address w k d) = Nat.iter m (read_irq address) d /\
    (snd (fst (tocard_poll address w k d)) + m = S k)%nat.
Proof.
  assert (Hone : forall (d d1 : D) n, _rreg address _REG_COM_IRQ d = (n, d1) ->
            Nat.iter 1 (read_irq address) d = d1).
  { intros d0 d1 n E. change (Nat.iter 1 (read_irq address) d0) with (read_irq address d0). unfold read_irq. now rewrite E. }
  revert d. induction k as [|k IH]; intros d; cbn [tocard_poll];
    destruct (_rreg address _REG_COM_IRQ d) as [n d1] eqn:E.
  - exists 1%nat. rewrite (Hone _ _ _ E).
    destruct (truthy _); [|destruct (truthy _)]; cbn; repeat split; lia.
  - destruct (truthy (Z.land n w)); [|destruct (truthy (Z.land n 1))].
    1,2: exists 1%nat; rewrite (Hone _ _ _ E); cbn; repeat split; lia.
    destruct (IH d1) as (m & Hm & Hs & Hi). exists (S m).
    rewrite Nat.iter_succ_r.
    change (read_irq address d) with (Nat.iter 1 (read_irq address) d).
    rewrite (Hone _ _ _ E).
    repeat split; try lia. exact Hs.
Qed.

Lemma tocard_poll_quiet w k (d : D) :
  irq_quiet address w (S k) d = true ->
  exists n, tocard_poll address w k d
            = (n, O, Nat.iter (S k) (read_irq address) d).
Proof.
  revert d. induction k as [|k IH]; intros d; cbn [irq_quiet tocard_poll];
    rewrite Nat.iter_succ_r;
    destruct (_rreg address _REG_COM_IRQ d) as [n d1] eqn:E;
    assert (E1 : read_irq address d = d1) by (unfold read_irq; now rewrite E);
    rewrite E1.
  - destruct (truthy (Z.land n w)); [discriminate|].
    destruct (truthy (Z.land n 1)); [discriminate|]. intros _. now exists n.
  - destruct (truthy (Z.land n w)); [discriminate|].
    destruct (truthy (Z.land n 1)); [discriminate|]. cbn [negb andb].
    intros Hq. exact (IH d1 Hq).
Qed.

(** [irq_quiet] read as a statement on the stream of register values: the
    value of each of the next [k] reads has neither bit set. *)
Lemma irq_quiet_spec w k (d : D) :
  irq_quiet address w k d = true <->
  forall m, (m < k)%nat ->
    let n := fst (_rreg address _REG_COM_IRQ (Nat.iter m (read_irq address) d)) in
    Z.land n w = 0 /\ Z.land n 0x01 = 0.
Proof.
  revert d. induction k as [|k IH]; intros d; cbn [irq_quiet].
  - split; [intros _ m Hm; lia|reflexivity].
  - assert (E1 : read_irq address d = snd (_rreg address _REG_COM_IRQ d))
      by reflexivity.
    destruct (_rreg address _REG_COM_IRQ d) as [n d1] eqn:E. cbn [snd] in E1.
    unfold truthy. rewrite !negb_involutive, !andb_true_iff, !Z.eqb_eq, IH.
    split.
    + intros [[Hw Ht] Hrest] [|m] Hm.
      * cbn. rewrite E. now split.
      * rewrite Nat.iter_succ_r, E1. apply Hrest. lia.
    + intros Hall. split.
      * specialize (Hall O ltac:(lia)). cbn in Hall. now rewrite E in Hall.
      * intros m Hm. specialize (Hall (S m) ltac:(lia)).
        now rewrite Nat.iter_succ_r, E1 in Hall.
Qed.

(** C8.  The completion poll of [_tocard] reads the interrupt-request
    register at least once and at most 20000 times; and when neither the
    command's wait bit nor the timer bit 0x01 shows in the 20000 reads that
    follow the command start, [_tocard] makes all 20000 reads, clears the
    start-send bit and returns [ERR] with no received byte and a bit count
    of 0. *)
Theorem tocard_poll_budget cmd send (d : D) :
  let d0 := tocard_start address cmd send d in
  let w := tocard_wait_irq cmd in
  (exists m, (1 <= m)%nat /\ Z.of_nat m <= 20000 /\
     snd (tocard_poll address w (Z.to_nat (20000 - 1)) d0)
     = Nat.iter m (read_irq address) d0) /\
  (irq_quiet address w (Z.to_nat 20000) d0 = true ->
   _tocard address cmd send d
   = (ERR, [], 0,
      _cflags address _REG_BIT_FRAMING 0x80
        (Nat.iter (Z.to_nat 20000) (read_irq address) d0))).
Proof.
  intros d0 w. split.
  - destruct (tocard_poll_reads w (Z.to_nat (20000 - 1)) d0) as (m & Hm & Hs & _).
    exists m. repeat split; [lia|lia|exact Hs].
  - intros Hq. unfold _tocard. fold d0. fold w.
    replace (Z.to_nat 20000) with (S (Z.to_nat (20000 - 1))) in * by lia.
    destruct (tocard_poll_quiet _ _ _ Hq) as [n ->].
    reflexivity.
Qed.

(** ** Received bits against received bytes *)

(** C4, as the code has it.  An outcome of [_tocard] either carries no
    byte and a bit count of 0, or was read by [tocard_receive] from some
    bus state [d0]; with [n] the FIFO fill level read there, a level of at
    most 16 (0 included) gives [bits <= 8 * len(recv)], and a level above
    16 gives exactly 16 bytes with a bit count above 128. *)
Theorem tocard_bits_bound cmd send (d : D) st recv bits d' :
  _tocard address cmd send d = (st, recv, bits, d') ->
  (recv = [] /\ bits = 0) \/
  exists d0, tocard_receive address d0 = (recv, bits, d') /\
    let n := fst (_rreg address _REG_FIFO_LEVEL d0) in
    (n <= 16 -> bits <= 8 * Z.of_nat (List.length recv)) /\
    (16 < n -> List.length recv = 16%nat /\ 128 < bits).
Proof.
  intros E. pose proof (tocard_cases address cmd send d) as Hc. rewrite E in Hc.
  destruct Hc as [Hc|(_ & _ & d0 & Hr)]; [now left|right].
  exists d0. split; [exact Hr|].
  pose proof (tocard_receive_spec address d0) as Hs. rewrite Hr in Hs.
  cbv zeta in *. tauto.
Qed.

Lemma tocard_recv_bytes cmd send (d : D) st recv bits d' :
  _tocard address cmd send d = (st, recv, bits, d') -> Forall is_byte recv.
Proof.
  intros E. pose proof (tocard_cases address cmd send d) as Hc. rewrite E in Hc.
  destruct Hc as [[-> _]|(_ & _ & d0 & Hr)]; [constructor|].
  pose proof (tocard_receive_spec address d0) as Hs. rewrite Hr in Hs.
  cbv zeta in Hs. tauto.
Qed.

Lemma tocard_recv_OK cmd send (d : D) st recv bits d' :
  _tocard address cmd send d = (st, recv, bits, d') -> recv <> [] -> st = OK.
Proof.
  intros E. pose proof (tocard_cases address cmd send d) as Hc. rewrite E in Hc.
  destruct Hc as [[-> _]|(-> & _)]; congruence.
Qed.

End CommandRunner.

(** ** The formatted identifier *)

Section Formatting.

Local Open Scope string_scope.

Lemma append_assoc (a b c : string) : (a ++ b) ++ c = a ++ (b ++ c).
Proof. induction a as [|x a IH]; cbn; [reflexivity|now rewrite IH]. Qed.

Lemma append_empty_r (a : string) : a ++ "" = a.
Proof. induction a as [|x a IH]; cbn; [reflexivity|now rewrite IH]. Qed.

Lemma upper_append (a b : string) : upper (a ++ b) = upper a ++ upper b.
Proof. induction a as [|x a IH]; cbn; [reflexivity|now rewrite IH]. Qed.

(** A property checked on each of the 256 bytes holds of every byte. *)
Lemma byte_cases (P : Z -> bool) :
  forallb P (map Z.of_nat (seq 0 256)) = true ->
  forall b, is_byte b -> P b = true.
Proof.
  intros Hall b [Hlo Hhi]. rewrite forallb_forall in Hall. apply Hall.
  apply in_map_iff. exists (Z.to_nat b). split; [lia|].
  apply in_seq. lia.
Qed.

(** What one turn of the loop appends for a byte: a ["0"] below 16, then
    the digits of [hex]; in upper case these are the two digits of
    [two_hex_upper]. *)
Lemma cell_upper b :
  is_byte b ->
  upper ((if (b <? 16)%Z then "0" else "") ++ str_from 2 (hex b)) = two_hex_upper b.
Proof.
  intros Hb. apply String.eqb_eq.
  revert b Hb.
  apply (byte_cases (fun b =>
    String.eqb (upper ((if (b <? 16)%Z then "0" else "") ++ str_from 2 (hex b)))
               (two_hex_upper b))).
  vm_compute. reflexivity.
Qed.

Lemma format_loop_acc id : forall i acc,
  format_loop i id acc = acc ++ format_loop i id "".
Proof.
  induction id as [|b rest IH]; intros i acc; cbn [format_loop].
  - now rewrite append_empty_r.
  - rewrite IH. rewrite (IH _ (_ ++ str_from 2 (hex b))).
    rewrite <- append_assoc. f_equal.
    destruct (0 <? i)%nat, (b <? 16)%Z; cbn [append];
      now rewrite ?append_assoc.
Qed.

Lemma format_loop_cons i b rest :
  is_byte b ->
  upper (format_loop i (b :: rest) "")
  = (if (0 <? i)%nat then ":" else "") ++ two_hex_upper b
    ++ upper (format_loop (S i) rest "").
Proof.
  intros Hb. cbn [format_loop]. rewrite format_loop_acc, upper_append.
  rewrite <- (cell_upper b Hb), <- append_assoc. f_equal.
  destruct (0 <? i)%nat, (b <? 16)%Z; reflexivity.
Qed.

Lemma format_loop_tail l : forall i b0,
  (0 < i)%nat -> Forall is_byte l ->
  two_hex_upper b0 ++ upper (format_loop i l "") = colon_hex (b0 :: l).
Proof.
  induction l as [|b l IH]; intros i b0 Hi Hl.
  - cbn. reflexivity.
  - inversion Hl as [|? ? Hb Hl']; subst.
    rewrite (format_loop_cons i b l Hb).
    destruct (Nat.ltb_spec 0 i) as [_|]; [|lia].
    rewrite (IH (S i) b ltac:(lia) Hl').
    unfold colon_hex. cbn [map String.concat]. reflexivity.
Qed.

(** The string built by lines 260-267 and upper-cased at line 271 is the
    colon-separated two-digit uppercase rendering. *)
Lemma format_colon_hex id :
  Forall is_byte id -> upper (format_loop 0 id "") = colon_hex id.
Proof.
  destruct id as [|b l]; intros Hl; [reflexivity|].
  inversion Hl as [|? ? Hb Hl']; subst.
  rewrite (format_loop_cons 0 b l Hb). cbn [Nat.ltb Nat.leb append].
  apply format_loop_tail; [lia|exact Hl'].
Qed.

Lemma two_hex_split b rest :
  is_byte b ->
  split_on ":" (two_hex_upper b ++ rest)
  = match split_on ":" rest with
    | [] => [two_hex_upper b]
    | p :: ps => (two_hex_upper b ++ p) :: ps
    end.
Proof.
  intros Hb.
  assert (Hc : Ascii.eqb (hex_digit_upper (b / 16)) ":" = false /\
               Ascii.eqb (hex_digit_upper (b mod 16)) ":" = false).
  { pose proof (byte_cases (fun b =>
      negb (Ascii.eqb (hex_digit_upper (b / 16)) ":")
      && negb (Ascii.eqb (hex_digit_upper (b mod 16)) ":"))
      ltac:(vm_compute; reflexivity) b Hb) as Hc.
    cbv beta in Hc. apply andb_true_iff in Hc. destruct Hc as [H1 H2].
    apply negb_true_iff in H1, H2. now split. }
  destruct Hc as [H1 H2].
  unfold two_hex_upper. cbn [append split_on]. rewrite H1, H2.
  destruct (split_on ":" rest) as [|p ps]; reflexivity.
Qed.

Lemma two_hex_value b : is_byte b -> hex_value (two_hex_upper b) = Some b.
Proof.
  intros Hb.
  assert (Hv : (match hex_value (two_hex_upper b) with
                | Some v => (v =? b)%Z
                | None => false
                end) = true).
  { revert b Hb. apply byte_cases. vm_compute. reflexivity. }
  destruct (hex_value (two_hex_upper b)) as [v|]; [|discriminate].
  apply Z.eqb_eq in Hv. now subst.
Qed.

Lemma colon_hex_cons b c l :
  colon_hex (b :: c :: l) = two_hex_upper b ++ ":" ++ colon_hex (c :: l).
Proof. reflexivity. Qed.

Lemma split_colon_hex b l :
  Forall is_byte (b :: l) ->
  split_on ":" (colon_hex (b :: l)) = map two_hex_upper (b :: l).
Proof.
  revert b. induction l as [|c l IH]; intros b Hl;
    inversion Hl as [|? ? Hb Hl']; subst.
  - change (colon_hex [b]) with (two_hex_upper b).
    rewrite <- (append_empty_r (two_hex_upper b)) at 1.
    rewrite (two_hex_split b "" Hb). cbn [split_on map].
    now rewrite append_empty_r.
  - rewrite colon_hex_cons, (two_hex_split b _ Hb).
    change (split_on ":" (":" ++ colon_hex (c :: l)))
      with ("" :: split_on ":" (colon_hex (c :: l))).
    cbv beta iota. rewrite append_empty_r, (IH c Hl'). reflexivity.
Qed.

Lemma parse_colon_hex l :
  Forall is_byte l -> l <> [] -> parse_uid (colon_hex l) = Some l.
Proof.
  intros Hl Hne. destruct l as [|b l]; [congruence|].
  unfold parse_uid. rewrite (split_colon_hex b l Hl).
  clear Hne. induction Hl as [|x xs Hx Hxs IH]; [reflexivity|].
  cbn [map all_some]. rewrite (two_hex_value x Hx), IH. reflexivity.
Qed.

(** C9.  For every sequence of bytes of length 4, 7 or 10, the string that
    lines 260-271 build from it, split on [":"] and decoded piece by piece
    as hexadecimal, gives the sequence back. *)
Theorem format_round_trip (id : list Z) :
  Forall is_byte id ->
  List.length id = 4%nat \/ List.length id = 7%nat \/ List.length id = 10%nat ->
  parse_uid (upper (format_loop 0 id "")) = Some id.
Proof.
  intros Hb Hlen. rewrite (format_colon_hex id Hb).
  apply parse_colon_hex; [exact Hb|].
  destruct id; [cbn in Hlen; lia|congruence].
Qed.

End Formatting.

Section Cascade.

Context {D : Type} `{I2C D}.
Variable address : Z.

(** ** Anticollision and select *)

(** C5, as the code has it.  Let the transceive of [_anticoll] return
    status [st] and bytes [recv].  A 5-byte [recv] whose first four bytes
    XOR to something else than the fifth gives [ERR]; a 5-byte [recv]
    whose first four bytes XOR to the fifth gives [OK] with [recv] itself;
    a [recv] of another length gives [ERR] when [st] is [OK]; and a status
    other than [OK] ([NOTAGERR] or [ERR]) comes with an empty [recv] and is
    returned unchanged. *)
Theorem anticoll_checksum anticolN (d : D) st recv bits d' :
  _tocard address _CMD_TRANCEIVE [anticolN; 0x20]
    (_wreg address _REG_BIT_FRAMING 0x00 d) = (st, recv, bits, d') ->
  (forall b0 b1 b2 b3 b4, recv = [b0; b1; b2; b3; b4] ->
     (Z.lxor (Z.lxor (Z.lxor b0 b1) b2) b3 <> b4 ->
      _anticoll address anticolN d = (ERR, recv, d')) /\
     (Z.lxor (Z.lxor (Z.lxor b0 b1) b2) b3 = b4 ->
      _anticoll address anticolN d = (OK, recv, d'))) /\
  (List.length recv <> 5%nat -> st = OK ->
   _anticoll address anticolN d = (ERR, recv, d')) /\
  (st <> OK -> recv = [] /\ _anticoll address anticolN d = (st, recv, d')).
Proof.
  intros E. unfold _anticoll. rewrite E.
  assert (Hne : recv <> [] -> st = OK)
    by apply (tocard_recv_OK address _ _ _ _ _ _ _ E).
  split; [|split].
  - intros b0 b1 b2 b3 b4 ->. rewrite Hne by discriminate. cbn.
    split; intros Hx.
    + destruct (Z.eqb_spec (Z.lxor (Z.lxor (Z.lxor b0 b1) b2) b3) b4);
        [contradiction|reflexivity].
    + rewrite Hx, Z.eqb_refl. reflexivity.
  - intros Hlen ->. cbn [status_eqb].
    destruct (Nat.eqb_spec (List.length recv) 5); [contradiction|reflexivity].
  - intros Hst. split.
    + destruct recv as [|x recv]; [reflexivity|].
      exfalso. apply Hst, Hne. discriminate.
    + destruct st; [contradiction| |]; reflexivity.
Qed.

(** An anticollision that returns [OK] returns five bytes, the fifth being
    the XOR of the first four. *)
Lemma anticoll_OK anticolN (d : D) uid d' :
  _anticoll address anticolN d = (OK, uid, d') ->
  Forall is_byte uid /\
  exists b0 b1 b2 b3, uid = [b0; b1; b2; b3; Z.lxor (Z.lxor (Z.lxor b0 b1) b2) b3].
Proof.
  unfold _anticoll.
  destruct (_tocard address _CMD_TRANCEIVE [anticolN; 32]
              (_wreg address _REG_BIT_FRAMING 0 d)) as [[[st recv] bits] d1] eqn:E.
  pose proof (tocard_recv_bytes address _ _ _ _ _ _ _ E) as Hb.
  destruct st; cbn [status_eqb]; try discriminate.
  destruct recv as [|b0 [|b1 [|b2 [|b3 [|b4 [|b5 recv]]]]]]; try discriminate.
  cbn. destruct (Z.eqb_spec (Z.lxor (Z.lxor (Z.lxor b0 b1) b2) b3) b4);
    cbn; [|discriminate].
  intros [= <- <-]. split; [exact Hb|]. subst b4. now exists b0, b1, b2, b3.
Qed.

(** [_selectTag] returns 1 exactly when its transceive ends [OK] with 24
    bits, and 0 otherwise. *)
Lemma selectTag_spec serNum anticolN (d : D) :
  let buf := [anticolN; 0x70] ++ serNum in
  let '(pOut, d1) := _crc address buf d in
  let '(st, _, backLen, d2) :=
    _tocard address 0x0C (buf ++ [nth 0 pOut 0; nth 1 pOut 0]) d1 in
  _selectTag address serNum anticolN d
  = (if status_eqb st OK && (backLen =? 0x18) then 1 else 0, d2).
Proof.
  unfold _selectTag. cbv zeta.
  destruct (_crc address _ d) as [pOut d1].
  destruct (_tocard address 12 _ d1) as [[[st back] backLen] d2].
  destruct (status_eqb st OK && (backLen =? 24)); reflexivity.
Qed.

Lemma selectTag_01 serNum anticolN (d : D) :
  fst (_selectTag address serNum anticolN d) = 0 \/
  fst (_selectTag address serNum anticolN d) = 1.
Proof.
  pose proof (selectTag_spec serNum anticolN d) as Hs. cbv zeta in Hs.
  destruct (_crc address _ d) as [pOut d1].
  destruct (_tocard address 12 _ d1) as [[[st back] backLen] d2].
  rewrite Hs. destruct (status_eqb st OK && (backLen =? 24)); auto.
Qed.

(** ** The end of the cascade *)

Lemma firstn_drop_last {A : Type} (l : list A) (x : A) :
  firstn (List.length (l ++ [x]) - 1) (l ++ [x]) = l.
Proof.
  rewrite length_app. cbn [List.length].
  replace (List.length l + 1 - 1)%nat with (List.length l + 0)%nat by lia.
  rewrite firstn_app_2. cbn. apply app_nil_r.
Qed.

(** Lines 259-271 on a five-byte fragment: the checksum byte is dropped,
    the identifier is what was gathered plus the first four bytes. *)
Lemma finish_five valid_uid b0 b1 b2 b3 b4 (d : D) :
  Forall is_byte (valid_uid ++ [b0; b1; b2; b3]) ->
  finish valid_uid [b0; b1; b2; b3; b4] d
  = ({| success := true;
        id_integers := valid_uid ++ [b0; b1; b2; b3];
        id_formatted := colon_hex (valid_uid ++ [b0; b1; b2; b3]);
        type := if (List.length (valid_uid ++ [b0; b1; b2; b3]) =? 4)%nat
                then "classic"%string else "ntag"%string |}, d).
Proof.
  intros Hb. unfold finish.
  change (slice 0 5 [b0; b1; b2; b3; b4]) with ([b0; b1; b2; b3] ++ [b4]).
  rewrite app_assoc, firstn_drop_last, (format_colon_hex _ Hb). reflexivity.
Qed.

Lemma finish_success valid_uid uid (d : D) :
  success (fst (finish valid_uid uid d)) = true /\ snd (finish valid_uid uid d) = d.
Proof. split; reflexivity. Qed.

(** ** Identification *)

(** C1.  When the level-1 anticollision returns [0x88; b1; b2; b3; chk]
    with status [OK] (so with a valid checksum), the level-1 select returns
    1 (its transceive ended [OK] with 24 bits), the level-2 anticollision
    returns [c1; c2; c3; c4; chk'] with [OK] and [c1] other than 0x88, and
    the level-2 select returns 1, then [_readTagID] returns success, the
    seven bytes [b1; b2; b3; c1; c2; c3; c4], their colon-separated
    two-digit uppercase rendering and the kind ["ntag"]. *)
Theorem readTagID_two_levels (d0 : D) b1 b2 b3 chk d1 d2 c1 c2 c3 c4 chk' d3 d4 :
  _anticoll address _TAG_CMD_ANTCOL1 d0 = (OK, [0x88; b1; b2; b3; chk], d1) ->
  _selectTag address [0x88; b1; b2; b3; chk] _TAG_CMD_ANTCOL1 d1 = (1, d2) ->
  _anticoll address _TAG_CMD_ANTCOL2 d2 = (OK, [c1; c2; c3; c4; chk'], d3) ->
  c1 <> 0x88 ->
  _selectTag address [c1; c2; c3; c4; chk'] _TAG_CMD_ANTCOL2 d3 = (1, d4) ->
  _readTagID address d0
  = ({| success := true;
        id_integers := [b1; b2; b3; c1; c2; c3; c4];
        id_formatted := colon_hex [b1; b2; b3; c1; c2; c3; c4];
        type := "ntag" |}, d4).
Proof.
  intros A1 S1 A2 Hc S2.
  destruct (anticoll_OK _ _ _ _ A1) as [F1 _].
  destruct (anticoll_OK _ _ _ _ A2) as [F2 _].
  unfold _readTagID. rewrite A1. cbn [status_eqb negb]. rewrite S1.
  cbn [Z.eqb nth Pos.eqb]. unfold level2. rewrite A2. cbn [status_eqb negb].
  rewrite S2. cbn [Z.eqb nth].
  destruct (Z.eqb_spec c1 0x88) as [|_]; [contradiction|].
  change ([] ++ slice 1 4 [136; b1; b2; b3; chk]) with [b1; b2; b3].
  rewrite finish_five; [reflexivity|].
  inversion F1 as [|? ? _ F1a]; subst. inversion F1a as [|? ? B1 F1b]; subst.
  inversion F1b as [|? ? B2 F1c]; subst. inversion F1c as [|? ? B3 _]; subst.
  inversion F2 as [|? ? C1 F2a]; subst. inversion F2a as [|? ? C2 F2b]; subst.
  inversion F2b as [|? ? C3 F2c]; subst. inversion F2c as [|? ? C4 _]; subst.
  cbn [app]. repeat (apply Forall_cons; [assumption|]). apply Forall_nil.
Qed.

(** *** Which level the cascade ends at *)

Lemma finish_length valid_uid uid (d : D) :
  List.length uid = 5%nat ->
  List.length (id_integers (fst (finish valid_uid uid d)))
  = (List.length valid_uid + 4)%nat.
Proof.
  intros Hlen. unfold finish, slice. cbn [fst id_integers skipn].
  rewrite length_firstn, length_app, length_firstn. lia.
Qed.

Lemma anticoll_OK_length anticolN (d : D) uid d' :
  _anticoll address anticolN d = (OK, uid, d') -> List.length uid = 5%nat.
Proof.
  intros E. destruct (anticoll_OK _ _ _ _ E) as (_ & b0 & b1 & b2 & b3 & ->).
  reflexivity.
Qed.

Lemma slice_1_4_length (uid : list Z) :
  List.length uid = 5%nat -> List.length (slice 1 4 uid) = 3%nat.
Proof.
  intros Hlen. unfold slice. rewrite length_firstn, length_skipn. lia.
Qed.

Lemma level3_result valid_uid (d : D) :
  success (fst (level3 address valid_uid d)) = false \/
  List.length (id_integers (fst (level3 address valid_uid d)))
  = (List.length valid_uid + 4)%nat.
Proof.
  unfold level3.
  destruct (_anticoll address _TAG_CMD_ANTCOL3 d) as [[st uid] d1] eqn:A.
  destruct st; cbn [status_eqb negb]; [right|left; reflexivity..].
  apply finish_length, (anticoll_OK_length _ _ _ _ A).
Qed.

Lemma level2_result valid_uid (d : D) :
  success (fst (level2 address valid_uid d)) = false \/
  (List.length valid_uid + 4
   <= List.length (id_integers (fst (level2 address valid_uid d))))%nat.
Proof.
  unfold level2.
  destruct (_anticoll address _TAG_CMD_ANTCOL2 d) as [[st uid] d1] eqn:A.
  destruct st; cbn [status_eqb negb]; [|left; reflexivity..].
  pose proof (anticoll_OK_length _ _ _ _ A) as Hlen.
  destruct (_selectTag address uid _TAG_CMD_ANTCOL2 d1) as [rtn d2].
  destruct (rtn =? 0); [left; reflexivity|].
  destruct (nth 0 uid 0 =? 136).
  - destruct (level3_result (valid_uid ++ slice 1 4 uid) d2) as [Hf|Hl];
      [now left|right].
    rewrite Hl, length_app. lia.
  - right. rewrite (finish_length _ _ _ Hlen). lia.
Qed.

(** On every bus: at level 1 and at level 2, once the level's
    anticollision has returned [OK] and its select a non-zero value, the
    cascade goes on with [level2], respectively [level3], exactly when the
    fragment starts with 0x88; otherwise at level 1 the result is the
    ["classic"] identifier and the bus is as the level-1 select left it. *)
Lemma cascade_step :
  (forall (d : D) uid d1 sel d2,
     _anticoll address _TAG_CMD_ANTCOL1 d = (OK, uid, d1) ->
     _selectTag address uid _TAG_CMD_ANTCOL1 d1 = (sel, d2) -> sel <> 0 ->
     (nth 0 uid 0 = 0x88 <->
      _readTagID address d = level2 address (slice 1 4 uid) d2) /\
     (nth 0 uid 0 <> 0x88 ->
      _readTagID address d
      = ({| success := true;
            id_integers := firstn 4 uid;
            id_formatted := colon_hex (firstn 4 uid);
            type := "classic" |}, d2))) /\
  (forall valid_uid (d : D) uid d1 rtn d2,
     _anticoll address _TAG_CMD_ANTCOL2 d = (OK, uid, d1) ->
     _selectTag address uid _TAG_CMD_ANTCOL2 d1 = (rtn, d2) -> rtn <> 0 ->
     (nth 0 uid 0 = 0x88 <->
      level2 address valid_uid d
      = level3 address (valid_uid ++ slice 1 4 uid) d2) /\
     (nth 0 uid 0 <> 0x88 ->
      level2 address valid_uid d = finish valid_uid uid d2)).
Proof.
  split.
  - intros d uid d1 sel d2 A1 S1 Hsel.
    pose proof (anticoll_OK_length _ _ _ _ A1) as Hlen.
    assert (E : _readTagID address d
                = if nth 0 uid 0 =? 0x88
                  then level2 address (slice 1 4 uid) d2
                  else finish [] uid d2).
    { unfold _readTagID. rewrite A1. cbn [status_eqb negb]. rewrite S1.
      destruct (Z.eqb_spec sel 0); [contradiction|reflexivity]. }
    rewrite E. destruct (Z.eqb_spec (nth 0 uid 0) 0x88) as [Heq|Hne].
    + split; [tauto|contradiction].
    + split.
      * split; [contradiction|]. intros Hfin. exfalso.
        pose proof (finish_success [] uid d2) as [Hs _].
        pose proof (finish_length [] uid d2 Hlen) as Hl.
        rewrite Hfin in Hs, Hl.
        destruct (level2_result (slice 1 4 uid) d2) as [Hf|Hge];
          [congruence|].
        rewrite (slice_1_4_length uid Hlen) in Hge. cbn [List.length Nat.add] in Hl. lia.
      * intros _.
        destruct (anticoll_OK _ _ _ _ A1) as (Hb & b0 & b1 & b2 & b3 & ->).
        rewrite finish_five; [reflexivity|].
        cbn [app]. inversion Hb as [|? ? B0 F1]; subst.
        inversion F1 as [|? ? B1 F2]; subst. inversion F2 as [|? ? B2 F3]; subst.
        inversion F3 as [|? ? B3 _]; subst.
        repeat (apply Forall_cons; [assumption|]). apply Forall_nil.
  - intros valid_uid d uid d1 rtn d2 A2 S2 Hrtn.
    pose proof (anticoll_OK_length _ _ _ _ A2) as Hlen.
    assert (E : level2 address valid_uid d
                = if nth 0 uid 0 =? 0x88
                  then level3 address (valid_uid ++ slice 1 4 uid) d2
                  else finish valid_uid uid d2).
    { unfold level2. rewrite A2. cbn [status_eqb negb]. rewrite S2.
      destruct (Z.eqb_spec rtn 0); [contradiction|reflexivity]. }
    rewrite E. destruct (Z.eqb_spec (nth 0 uid 0) 0x88) as [Heq|Hne].
    + split; [tauto|contradiction].
    + split; [|reflexivity].
      split; [contradiction|]. intros Hfin. exfalso.
      pose proof (finish_success valid_uid uid d2) as [Hs _].
      pose proof (finish_length valid_uid uid d2 Hlen) as Hl.
      rewrite Hfin in Hs, Hl.
      destruct (level3_result (valid_uid ++ slice 1 4 uid) d2) as [Hf|Hl3];
        [congruence|].
      rewrite Hl3, length_app, (slice_1_4_length uid Hlen) in Hl. lia.
Qed.

End Cascade.

Section Session.

Context {D : Type} `{I2C D}.
Variable address : Z.

(** ** Failure of the cascade *)

Lemma readTagID_fails (d : D) :
  cascade_failure address d -> fst (_readTagID address d) = result0.
Proof.
  intros Hf. unfold _readTagID.
  destruct Hf as [st uid d1 A1 Hst
                 |uid d1 d2 A1 S1
                 |uid d1 r1 d2 st uid2 d3 A1 S1 Hr1 H88 A2 Hst
                 |uid d1 r1 d2 uid2 d3 d4 A1 S1 Hr1 H88 A2 S2
                 |uid d1 r1 d2 uid2 d3 r2 d4 st uid3 d5
                    A1 S1 Hr1 H88 A2 S2 Hr2 H88' A3 Hst];
    rewrite A1; cbn [status_eqb negb].
  - destruct st; [contradiction|reflexivity..].
  - rewrite S1. reflexivity.
  - rewrite S1. destruct (Z.eqb_spec r1 0); [contradiction|].
    rewrite H88. cbn [Z.eqb Pos.eqb]. unfold level2. rewrite A2.
    destruct st; [contradiction|reflexivity..].
  - rewrite S1. destruct (Z.eqb_spec r1 0); [contradiction|].
    rewrite H88. cbn [Z.eqb Pos.eqb]. unfold level2. rewrite A2.
    cbn [status_eqb negb]. rewrite S2. reflexivity.
  - rewrite S1. destruct (Z.eqb_spec r1 0); [contradiction|].
    rewrite H88. cbn [Z.eqb Pos.eqb]. unfold level2. rewrite A2.
    cbn [status_eqb negb]. rewrite S2.
    destruct (Z.eqb_spec r2 0); [contradiction|].
    rewrite H88'. cbn [Z.eqb Pos.eqb]. unfold level3. rewrite A3.
    destruct st; [contradiction|reflexivity..].
Qed.

(** Conversely, [_readTagID] reports no success only on a cascade failure:
    the predicate is exact. *)
Lemma readTagID_fails_only (d : D) :
  success (fst (_readTagID address d)) = false -> cascade_failure address d.
Proof.
  unfold _readTagID.
  destruct (_anticoll address _TAG_CMD_ANTCOL1 d) as [[st uid] d1] eqn:A1.
  destruct st; cbn [status_eqb negb];
    [|intros _; eapply fail_anticoll1; [exact A1|discriminate]..].
  destruct (_selectTag address uid _TAG_CMD_ANTCOL1 d1) as [r1 d2] eqn:S1.
  destruct (Z.eqb_spec r1 0) as [->|Hr1];
    [intros _; eapply fail_select1; eassumption|].
  destruct (Z.eqb_spec (nth 0 uid 0) 136) as [H88|_]; [|discriminate].
  unfold level2.
  destruct (_anticoll address _TAG_CMD_ANTCOL2 d2) as [[st uid2] d3] eqn:A2.
  destruct st; cbn [status_eqb negb];
    [|intros _; eapply fail_anticoll2; try eassumption; discriminate..].
  destruct (_selectTag address uid2 _TAG_CMD_ANTCOL2 d3) as [r2 d4] eqn:S2.
  destruct (Z.eqb_spec r2 0) as [->|Hr2];
    [intros _; eapply fail_select2; eassumption|].
  destruct (Z.eqb_spec (nth 0 uid2 0) 136) as [H88'|_]; [|discriminate].
  unfold level3.
  destruct (_anticoll address _TAG_CMD_ANTCOL3 d4) as [[st uid3] d5] eqn:A3.
  destruct st; cbn [status_eqb negb]; [discriminate|..];
    intros _; eapply fail_anticoll3; try eassumption; discriminate.
Qed.

(** C2, as the code has it.  On every cascade failure (an anticollision
    that is not [OK] at level 1, 2 or 3, which covers the checksum
    mismatch, or a select that returns 0 at level 1 or 2), [_readTagID]
    returns no success with the empty identifier, and [readTagID], when
    its detection found the tag, returns no success with the one-entry
    identifier [[0]], an empty string and an empty kind. *)
Theorem cascade_failure_result :
  (forall d : D,
     cascade_failure address d ->
     fst (_readTagID address d)
     = {| success := false; id_integers := [];
          id_formatted := ""; type := "" |}) /\
  (forall s : self,
     present (fst (detect_retry address s)) = true ->
     cascade_failure address (i2c (snd (detect_retry address s))) ->
     fst (readTagID address s)
     = {| success := false; id_integers := [0];
          id_formatted := ""; type := "" |}).
Proof.
  split.
  - exact readTagID_fails.
  - intros s Hp Hf. unfold readTagID.
    destruct (detect_retry address s) as [r s']. cbn [fst snd] in Hp, Hf.
    rewrite Hp. apply readTagID_fails in Hf.
    destruct (_readTagID address (i2c s')) as [t d']. cbn [fst] in Hf.
    subst t. reflexivity.
Qed.

(** ** What a successful identification returns *)

Ltac forall_inv :=
  repeat match goal with
         | F : Forall _ (_ :: _) |- _ => inversion F; clear F; subst
         end.

Ltac forall_bytes :=
  cbn [app]; repeat (apply Forall_cons; [assumption|]); apply Forall_nil.

(** A successful [_readTagID] returns 4, 7 or 10 bytes, their
    colon-separated rendering, and the kind that goes with the length. *)
Lemma readTagID_success (d : D) :
  success (fst (_readTagID address d)) = true ->
  exists id,
    Forall is_byte id /\
    (List.length id = 4%nat \/ List.length id = 7%nat \/ List.length id = 10%nat) /\
    fst (_readTagID address d)
    = {| success := true; id_integers := id; id_formatted := colon_hex id;
         type := if (List.length id =? 4)%nat
                 then "classic"%string else "ntag"%string |}.
Proof.
  unfold _readTagID.
  destruct (_anticoll address _TAG_CMD_ANTCOL1 d) as [[st uid] d1] eqn:A1.
  destruct st; cbn [status_eqb negb]; [|discriminate..].
  destruct (anticoll_OK _ _ _ _ _ A1) as (F1 & a0 & a1 & a2 & a3 & ->).
  destruct (_selectTag address _ _TAG_CMD_ANTCOL1 d1) as [r1 d2].
  destruct (r1 =? 0); [discriminate|].
  destruct (nth 0 _ 0 =? 136).
  2:{ intros _. exists [a0; a1; a2; a3]. forall_inv.
      rewrite finish_five by forall_bytes.
      repeat split; [forall_bytes|now left]. }
  unfold level2.
  destruct (_anticoll address _TAG_CMD_ANTCOL2 d2) as [[st uid2] d3] eqn:A2.
  destruct st; cbn [status_eqb negb]; [|discriminate..].
  destruct (anticoll_OK _ _ _ _ _ A2) as (F2 & b0 & b1 & b2 & b3 & ->).
  destruct (_selectTag address _ _TAG_CMD_ANTCOL2 d3) as [r2 d4].
  destruct (r2 =? 0); [discriminate|].
  change ([] ++ slice 1 4 [a0; a1; a2; a3; Z.lxor (Z.lxor (Z.lxor a0 a1) a2) a3])
    with [a1; a2; a3].
  destruct (nth 0 _ 0 =? 136).
  2:{ intros _. exists [a1; a2; a3; b0; b1; b2; b3]. forall_inv.
      rewrite finish_five by forall_bytes.
      repeat split; [forall_bytes|right; now left]. }
  unfold level3.
  destruct (_anticoll address _TAG_CMD_ANTCOL3 d4) as [[st uid3] d5] eqn:A3.
  destruct st; cbn [status_eqb negb]; [|discriminate..].
  destruct (anticoll_OK _ _ _ _ _ A3) as (F3 & c0 & c1 & c2 & c3 & ->).
  change ([a1; a2; a3]
          ++ slice 1 4 [b0; b1; b2; b3; Z.lxor (Z.lxor (Z.lxor b0 b1) b2) b3])
    with [a1; a2; a3; b1; b2; b3].
  intros _. exists [a1; a2; a3; b1; b2; b3; c0; c1; c2; c3]. forall_inv.
  rewrite finish_five by forall_bytes.
  repeat split; [forall_bytes|right; now right].
Qed.

(** The identifier string of a successful [_readTagID] parses back to the
    identifier it returns. *)
Lemma readTagID_round_trip (d : D) :
  success (fst (_readTagID address d)) = true ->
  parse_uid (id_formatted (fst (_readTagID address d)))
  = Some (id_integers (fst (_readTagID address d))).
Proof.
  intros Hs. destruct (readTagID_success d Hs) as (id & Hb & Hlen & ->).
  cbn [id_formatted id_integers]. apply parse_colon_hex; [exact Hb|].
  destruct id; [cbn in Hlen; lia|congruence].
Qed.

(** ** Presence *)


(** ** Level 3 and the antenna *)

(** At level 3 the result is decided by the anticollision alone: with an
    [OK] anticollision [level3] succeeds and leaves the bus as the
    anticollision left it, no select frame being sent. *)
Lemma level3_after_anticoll valid_uid (d : D) uid d' :
  _anticoll address _TAG_CMD_ANTCOL3 d = (OK, uid, d') ->
  level3 address valid_uid d = finish valid_uid uid d' /\
  success (fst (level3 address valid_uid d)) = true /\
  snd (level3 address valid_uid d) = d'.
Proof.
  intros A3. unfold level3. rewrite A3. cbn [status_eqb negb].
  repeat split.
Qed.

Lemma lnot_land3_truthy v : truthy (Z.lnot (Z.land v 0x03)) = true.
Proof.
  unfold truthy. apply negb_true_iff, Z.eqb_neq.
  assert (0 <= Z.land v 3) by (apply Z.land_nonneg; lia).
  unfold Z.lnot. lia.
Qed.

(** The guard of [antennaOff] is never true: the function reads the
    tx-control register once and writes nothing. *)
Lemma antennaOff_reads_only (d : D) :
  antennaOff address d = Some (snd (_rreg address _REG_TX_CONTROL d)).
Proof.
  unfold antennaOff. destruct (_rreg address _REG_TX_CONTROL d) as [v d1].
  rewrite lnot_land3_truthy. reflexivity.
Qed.

(** The guard of [antennaOn] is always true. *)
Lemma antennaOn_always_sets (d : D) :
  antennaOn address d
  = _sflags address _REG_TX_CONTROL 0x83 (snd (_rreg address _REG_TX_CONTROL d)).
Proof.
  unfold antennaOn. destruct (_rreg address _REG_TX_CONTROL d) as [v d1].
  rewrite lnot_land3_truthy. reflexivity.
Qed.

End Session.

(** ** Every value written to the bus is a byte

    [_wreg] and [_wfifo] build their payload with [bytes(...)], which
    raises [ValueError] on an integer outside 0..255.  The section shows
    that identification never does so: a property of the bus state that
    reads keep and that writes of bytes keep is kept by every driver
    function on the path of [readTagID]. *)

Section BusInvariant.

Context {D : Type} `{I2C D}.
Variable address : Z.
Variable P : D -> Prop.
Hypothesis read_keeps : forall d reg,
  P d -> P (snd (readfrom_mem d address reg)).
Hypothesis write_keeps : forall d reg data,
  Forall is_byte data -> P d -> P (writeto_mem d address reg data).

Lemma land_byte v m : is_byte v -> is_byte (Z.land v m).
Proof.
  intros [Hlo Hhi]. unfold is_byte.
  replace v with (Z.land v (Z.ones 8))
    by (rewrite Z.land_ones by lia; apply Z.mod_small; cbn; lia).
  rewrite <- Z.land_assoc, (Z.land_comm (Z.ones 8) m), Z.land_assoc.
  rewrite Z.land_ones by lia. apply Z.mod_pos_bound. reflexivity.
Qed.

Lemma lor_byte v m : is_byte v -> is_byte m -> is_byte (Z.lor v m).
Proof.
  intros [Hv Hv'] [Hm Hm']. unfold is_byte.
  replace v with (Z.land v (Z.ones 8))
    by (rewrite Z.land_ones by lia; apply Z.mod_small; cbn; lia).
  replace m with (Z.land m (Z.ones 8))
    by (rewrite Z.land_ones by lia; apply Z.mod_small; cbn; lia).
  rewrite <- Z.land_lor_distr_l, Z.land_ones by lia.
  apply Z.mod_pos_bound. reflexivity.
Qed.

Lemma rreg_keeps reg d : P d -> P (snd (_rreg address reg d)).
Proof.
  intros Hd. unfold _rreg. pose proof (read_keeps d reg Hd) as Hr.
  destruct (readfrom_mem d address reg). exact Hr.
Qed.

Lemma wreg_keeps reg val d : is_byte val -> P d -> P (_wreg address reg val d).
Proof.
  intros Hv Hd. apply write_keeps; [|exact Hd].
  apply Forall_cons; [exact Hv|apply Forall_nil].
Qed.

Lemma sflags_keeps reg mask d :
  is_byte mask -> P d -> P (_sflags address reg mask d).
Proof.
  intros Hm Hd. unfold _sflags.
  pose proof (rreg_byte address reg d) as Hb.
  pose proof (rreg_keeps reg d Hd) as Hr.
  destruct (_rreg address reg d) as [v d1].
  apply wreg_keeps; [now apply lor_byte|exact Hr].
Qed.

Lemma cflags_keeps reg mask d : P d -> P (_cflags address reg mask d).
Proof.
  intros Hd. unfold _cflags.
  pose proof (rreg_byte address reg d) as Hb.
  pose proof (rreg_keeps reg d Hd) as Hr.
  destruct (_rreg address reg d) as [v d1].
  apply wreg_keeps; [now apply land_byte|exact Hr].
Qed.

Lemma tocard_poll_keeps w k d : P d -> P (snd (tocard_poll address w k d)).
Proof.
  revert d. induction k as [|k IH]; intros d Hd; cbn [tocard_poll];
    pose proof (rreg_keeps _REG_COM_IRQ d Hd) as Hr;
    destruct (_rreg address _REG_COM_IRQ d) as [n d1];
    destruct (truthy _); try exact Hr; destruct (truthy _); try exact Hr.
  apply IH, Hr.
Qed.

Lemma drain_fifo_keeps n d : P d -> P (snd (drain_fifo address n d)).
Proof.
  revert d. induction n as [|n IH]; intros d Hd; cbn [drain_fifo]; [exact Hd|].
  pose proof (rreg_keeps _REG_FIFO_DATA d Hd) as Hr.
  destruct (_rreg address _REG_FIFO_DATA d) as [b d1].
  specialize (IH d1 Hr). destruct (drain_fifo address n d1). exact IH.
Qed.

Ltac byte_const := unfold is_byte; cbv; split; congruence.

Lemma tocard_keeps cmd send d :
  is_byte cmd -> Forall is_byte send -> P d ->
  P (snd (_tocard address cmd send d)).
Proof.
  intros Hc Hs Hd. unfold _tocard.
  assert (H0 : P (tocard_start address cmd send d)).
  { unfold tocard_start, _wfifo.
    assert (H1 : P (writeto_mem
                      (_sflags address _REG_FIFO_LEVEL 128
                         (_wreg address _REG_COM_IRQ 127
                            (_wreg address _REG_COMMAND _CMD_IDLE d)))
                      address _REG_FIFO_DATA send)).
    { apply write_keeps; [exact Hs|].
      apply sflags_keeps; [byte_const|].
      repeat (apply wreg_keeps; [byte_const|]). exact Hd. }
    destruct (cmd =? _CMD_TRANCEIVE).
    - apply sflags_keeps; [byte_const|]. apply wreg_keeps; [exact Hc|].
      apply sflags_keeps; [byte_const|exact H1].
    - apply wreg_keeps; [exact Hc|exact H1]. }
  pose proof (tocard_poll_keeps (tocard_wait_irq cmd) (Z.to_nat (20000 - 1)) _ H0)
    as H1.
  destruct (tocard_poll address _ _ _) as [[n i] d1]. cbn [snd] in H1.
  unfold tocard_finish.
  pose proof (cflags_keeps _REG_BIT_FRAMING 128 d1 H1) as H2.
  destruct i as [|i]; [exact H2|].
  pose proof (rreg_keeps _REG_ERROR _ H2) as H3.
  destruct (_rreg address _REG_ERROR _) as [e d2]. cbn [snd] in H3.
  destruct (Z.land e 27 =? 0); [|exact H3].
  destruct (truthy _); [exact H3|].
  destruct (cmd =? _CMD_TRANCEIVE); [|exact H3].
  unfold tocard_receive.
  pose proof (rreg_keeps _REG_FIFO_LEVEL _ H3) as H4.
  destruct (_rreg address _REG_FIFO_LEVEL d2) as [m d3]. cbn [snd] in H4.
  pose proof (rreg_keeps _REG_CONTROL _ H4) as H5.
  destruct (_rreg address _REG_CONTROL d3) as [c d4]. cbn [snd] in H5.
  pose proof (drain_fifo_keeps
                (Z.to_nat (if m =? 0 then 1 else if m >? 16 then 16 else m))
                d4 H5) as H6.
  destruct (drain_fifo address _ d4). exact H6.
Qed.

Lemma crc_keeps data d :
  Forall is_byte data -> P d ->
  P (snd (_crc address data d)) /\ Forall is_byte (fst (_crc address data d)).
Proof.
  intros Hdata Hd. unfold _crc.
  set (d1 := _sflags address _REG_FIFO_LEVEL 128 _).
  assert (H1 : P d1).
  { apply sflags_keeps; [byte_const|]. apply cflags_keeps.
    apply wreg_keeps; [byte_const|exact Hd]. }
  clearbody d1.
  assert (H2 : P (crc_push address data d1)).
  { clear Hd. revert d1 H1. induction Hdata as [|c rest Hc _ IH];
      intros d1 H1; cbn [crc_push]; [exact H1|].
    apply IH, wreg_keeps; assumption. }
  set (d2 := _wreg address _REG_COMMAND _CMD_CALC_CRC _).
  assert (H3 : P d2) by (apply wreg_keeps; [byte_const|exact H2]).
  clearbody d2.
  assert (H4 : P (crc_poll address 254 d2)).
  { generalize 254%nat as k. intros k. revert d2 H3.
    induction k as [|k IH]; intros d2 H3; cbn [crc_poll];
      pose proof (rreg_keeps _REG_DIV_IRQ d2 H3) as Hr;
      destruct (_rreg address _REG_DIV_IRQ d2) as [n d3]; [exact Hr|].
    destruct (truthy _); [exact Hr|apply IH, Hr]. }
  set (d3 := _wreg address _REG_COMMAND _CMD_IDLE _).
  assert (H5 : P d3) by (apply wreg_keeps; [byte_const|exact H4]).
  clearbody d3.
  pose proof (rreg_byte address _REG_CRC_RESULT_LSB d3) as B1.
  pose proof (rreg_keeps _REG_CRC_RESULT_LSB d3 H5) as H6.
  destruct (_rreg address _REG_CRC_RESULT_LSB d3) as [lsb d4].
  pose proof (rreg_byte address _REG_CRC_RESULT_MSB d4) as B2.
  pose proof (rreg_keeps _REG_CRC_RESULT_MSB d4 H6) as H7.
  destruct (_rreg address _REG_CRC_RESULT_MSB d4) as [msb d5].
  cbn [fst snd] in *. split; [exact H7|].
  apply Forall_cons; [exact B1|]. apply Forall_cons; [exact B2|]. apply Forall_nil.
Qed.

Lemma request_keeps mode d :
  is_byte mode -> P d -> P (snd (_request address mode d)).
Proof.
  intros Hm Hd. unfold _request.
  pose proof (tocard_keeps _CMD_TRANCEIVE [mode]
                (_wreg address _REG_BIT_FRAMING 7 d) ltac:(byte_const)
                ltac:(apply Forall_cons; [exact Hm|apply Forall_nil])
                ltac:(apply wreg_keeps; [byte_const|exact Hd])) as Ht.
  destruct (_tocard address _CMD_TRANCEIVE [mode] _) as [[[st recv] bits] d1].
  exact Ht.
Qed.

Lemma anticoll_keeps anticolN d :
  is_byte anticolN -> P d -> P (snd (_anticoll address anticolN d)).
Proof.
  intros Ha Hd. unfold _anticoll.
  pose proof (tocard_keeps _CMD_TRANCEIVE [anticolN; 32]
                (_wreg address _REG_BIT_FRAMING 0 d) ltac:(byte_const)
                ltac:(apply Forall_cons; [exact Ha|];
                      apply Forall_cons; [byte_const|apply Forall_nil])
                ltac:(apply wreg_keeps; [byte_const|exact Hd])) as Ht.
  destruct (_tocard address _CMD_TRANCEIVE [anticolN; 32] _)
    as [[[st recv] bits] d1].
  exact Ht.
Qed.

Lemma selectTag_keeps serNum anticolN d :
  Forall is_byte serNum -> is_byte anticolN -> P d ->
  P (snd (_selectTag address serNum anticolN d)).
Proof.
  intros Hs Ha Hd. unfold _selectTag.
  assert (Hbuf : Forall is_byte ([anticolN; 112] ++ serNum)).
  { cbn [app]. repeat (apply Forall_cons; [first [exact Ha|byte_const]|]).
    exact Hs. }
  destruct (crc_keeps _ d Hbuf Hd) as [H1 Hp].
  destruct (_crc address ([anticolN; 112] ++ serNum) d) as [pOut d1].
  cbn [fst snd] in H1, Hp.
  assert (Hn : forall k, is_byte (nth k pOut 0)).
  { intros k. destruct (nth_in_or_default k pOut 0) as [Hin| ->];
      [|byte_const]. rewrite Forall_forall in Hp. now apply Hp. }
  pose proof (tocard_keeps 12
                (([anticolN; 112] ++ serNum) ++ [nth 0 pOut 0; nth 1 pOut 0]) d1
                ltac:(byte_const)
                ltac:(apply Forall_app; split;
                      [exact Hbuf|];
                      apply Forall_cons; [apply Hn|];
                      apply Forall_cons; [apply Hn|apply Forall_nil]) H1) as Ht.
  destruct (_tocard address 12 _ d1) as [[[st back] backLen] d2].
  destruct (status_eqb st OK && (backLen =? 24)); exact Ht.
Qed.

Lemma readTagID_inner_keeps d : P d -> P (snd (_readTagID address d)).
Proof.
  intros Hd. unfold _readTagID.
  pose proof (anticoll_keeps _TAG_CMD_ANTCOL1 d ltac:(byte_const) Hd) as H1.
  destruct (_anticoll address _TAG_CMD_ANTCOL1 d) as [[st uid] d1] eqn:A1.
  destruct st; cbn [status_eqb negb]; try exact H1.
  destruct (anticoll_OK _ _ _ _ _ A1) as [F1 _].
  pose proof (selectTag_keeps uid _TAG_CMD_ANTCOL1 d1 F1 ltac:(byte_const) H1)
    as H2.
  destruct (_selectTag address uid _TAG_CMD_ANTCOL1 d1) as [r1 d2].
  destruct (r1 =? 0); [exact H2|].
  destruct (nth 0 uid 0 =? 136); [|exact H2].
  unfold level2.
  pose proof (anticoll_keeps _TAG_CMD_ANTCOL2 d2 ltac:(byte_const) H2) as H3.
  destruct (_anticoll address _TAG_CMD_ANTCOL2 d2) as [[st uid2] d3] eqn:A2.
  destruct st; cbn [status_eqb negb]; try exact H3.
  destruct (anticoll_OK _ _ _ _ _ A2) as [F2 _].
  pose proof (selectTag_keeps uid2 _TAG_CMD_ANTCOL2 d3 F2 ltac:(byte_const) H3)
    as H4.
  destruct (_selectTag address uid2 _TAG_CMD_ANTCOL2 d3) as [r2 d4].
  destruct (r2 =? 0); [exact H4|].
  destruct (nth 0 uid2 0 =? 136); [|exact H4].
  unfold level3.
  pose proof (anticoll_keeps _TAG_CMD_ANTCOL3 d4 ltac:(byte_const) H4) as H5.
  destruct (_anticoll address _TAG_CMD_ANTCOL3 d4) as [[st uid3] d5].
  destruct st; exact H5.
Qed.

Lemma detectTag_keeps s : P (i2c s) -> P (i2c (snd (_detectTag address s))).
Proof.
  intros Hs. unfold _detectTag.
  pose proof (request_keeps _TAG_CMD_REQIDL (i2c s) ltac:(byte_const) Hs) as Hr.
  destruct (_request address _TAG_CMD_REQIDL (i2c s)) as [[st atqa] d].
  exact Hr.
Qed.

(** The invariant holds after [readTagID]. *)
Lemma readTagID_keeps s : P (i2c s) -> P (i2c (snd (readTagID address s))).
Proof.
  intros Hs. unfold readTagID, detect_retry.
  pose proof (detectTag_keeps s Hs) as H1.
  destruct (_detectTag address s) as [r1 s1]. cbn [snd] in H1.
  assert (H2 : P (i2c (snd (if negb (present r1) then _detectTag address s1
                            else (r1, s1))))).
  { destruct (present r1); cbn [negb]; [exact H1|now apply detectTag_keeps]. }
  destruct (if negb (present r1) then _detectTag address s1 else (r1, s1))
    as [r s2]. cbn [snd] in H2.
  destruct (present r); [|exact H2].
  pose proof (readTagID_inner_keeps (i2c s2) H2) as H3.
  destruct (_readTagID address (i2c s2)) as [t d].
  destruct (success t); exact H3.
Qed.

End BusInvariant.

(** On the replaying bus, whatever the script, every transfer that
    [readTagID] writes carries bytes only. *)
Lemma readTagID_writes_bytes (address : Z) (s : list Z) :
  writes_ok (i2c (snd (readTagID address (self_of (sim_of s))))).
Proof.
  apply (readTagID_keeps address writes_ok).
  - intros d reg Hd. constructor; [exact I|exact Hd].
  - intros d reg data Hdata Hd. constructor; [exact Hdata|exact Hd].
  - constructor.
Qed.

(** ** The properties on concrete buses *)

(** *** The antenna on a register file *)

(** C7 (the code does otherwise).  On a register file, whatever the
    tx-control register holds, [antennaOff] returns with every register
    unchanged: the two output bits are not cleared. *)
Theorem antennaOff_keeps_register (address : Z) (m : regfile) :
  antennaOff address m = Some m.
Proof. rewrite antennaOff_reads_only. reflexivity. Qed.

(** With both output bits set before [antennaOff], both are set after. *)
Example antennaOff_on_stays_on :
  match antennaOff _I2C_ADDRESS tx_on with
  | Some m => Z.land (Z.of_N (Byte.to_N (m _REG_TX_CONTROL))) 0x03
  | None => 0
  end = 0x03.
Proof. rewrite antennaOff_keeps_register. reflexivity. Qed.

(** [antennaOn] does set the two output bits (and bit 7) of the register. *)
Lemma antennaOn_sets_bits (address : Z) (m : regfile) :
  Z.land (Z.of_N (Byte.to_N (antennaOn address m _REG_TX_CONTROL))) 0x03 = 0x03.
Proof.
  rewrite antennaOn_always_sets.
  unfold _sflags, _wreg, _rreg. cbn [readfrom_mem writeto_mem regfile_I2C snd].
  rewrite Z.eqb_refl. destruct (m _REG_TX_CONTROL); reflexivity.
Qed.

(** *** Replayed scripts *)

Lemma readTagID_two_levels_witness :
  fst (_readTagID _I2C_ADDRESS (sim_of script_two_levels))
  = {| success := true;
       id_integers := [0x04; 0x12; 0x34; 0x01; 0x02; 0x03; 0x04];
       id_formatted := "04:12:34:01:02:03:04";
       type := "ntag" |}.
Proof.
  pose (d0 := sim_of script_two_levels).
  pose (d1 := snd (_anticoll _I2C_ADDRESS _TAG_CMD_ANTCOL1 d0)).
  pose (d2 := snd (_selectTag _I2C_ADDRESS [0x88; 0x04; 0x12; 0x34; 0xAA]
                     _TAG_CMD_ANTCOL1 d1)).
  pose (d3 := snd (_anticoll _I2C_ADDRESS _TAG_CMD_ANTCOL2 d2)).
  pose (d4 := snd (_selectTag _I2C_ADDRESS [0x01; 0x02; 0x03; 0x04; 0x04]
                     _TAG_CMD_ANTCOL2 d3)).
  rewrite (readTagID_two_levels _I2C_ADDRESS d0 0x04 0x12 0x34 0xAA d1 d2
             0x01 0x02 0x03 0x04 0x04 d3 d4).
  - reflexivity.
  - vm_compute. reflexivity.
  - vm_compute. reflexivity.
  - vm_compute. reflexivity.
  - discriminate.
  - vm_compute. reflexivity.
Defined.

(** The bit count of [_tocard] exceeds eight times the bytes returned when
    the chip reports 17 bytes in its FIFO: 136 bits, 16 bytes. *)
Lemma tocard_bits_exceed_bytes :
  fst (_tocard _I2C_ADDRESS _CMD_TRANCEIVE [0x26] (sim_of script_overfull))
  = (OK, map Z.of_nat (seq 1 16), 136) /\
  ~ 136 <= 8 * Z.of_nat (List.length (map Z.of_nat (seq 1 16))).
Proof. split; [vm_compute; reflexivity|cbn; lia]. Qed.

Lemma tocard_bits_bound_witness :
  let d := sim_of atqa_reply in
  let out := _tocard _I2C_ADDRESS _CMD_TRANCEIVE [0x26] d in
  out = (OK, [0x04; 0x00], 16, snd out) /\
  (([0x04; 0x00] = [] /\ 16 = 0) \/
   exists d0, tocard_receive _I2C_ADDRESS d0 = ([0x04; 0x00], 16, snd out) /\
     let n := fst (_rreg _I2C_ADDRESS _REG_FIFO_LEVEL d0) in
     (n <= 16 -> 16 <= 8 * Z.of_nat (List.length [0x04; 0x00])) /\
     (16 < n -> List.length [0x04; 0x00] = 16%nat /\ 128 < 16)).
Proof.
  intros d out.
  assert (E : out = (OK, [0x04; 0x00], 16, snd out)) by (vm_compute; reflexivity).
  split; [exact E|].
  exact (tocard_bits_bound _I2C_ADDRESS _CMD_TRANCEIVE [0x26] d _ _ _ _ E).
Defined.

(** The timer interrupt makes [_tocard] return [NOTAGERR] with no byte, and
    [_anticoll] passes that status on: a response of length 0, not 5, and
    a status that is not [ERR]. *)
Lemma anticoll_notag_not_error :
  fst (_anticoll _I2C_ADDRESS _TAG_CMD_ANTCOL1 (sim_of script_timer))
  = (NOTAGERR, []) /\
  List.length (@nil Z) <> 5%nat /\ NOTAGERR <> ERR.
Proof. split; [vm_compute; reflexivity|split; discriminate]. Qed.

Lemma anticoll_checksum_witness :
  let d := sim_of script_one_level in
  let out := _tocard _I2C_ADDRESS _CMD_TRANCEIVE [_TAG_CMD_ANTCOL1; 0x20]
               (_wreg _I2C_ADDRESS _REG_BIT_FRAMING 0x00 d) in
  out = (OK, [0xDE; 0xAD; 0xBE; 0xEF; 0x22], 40, snd out) /\
  _anticoll _I2C_ADDRESS _TAG_CMD_ANTCOL1 d
  = (OK, [0xDE; 0xAD; 0xBE; 0xEF; 0x22], snd out).
Proof.
  intros d out.
  assert (E : out = (OK, [0xDE; 0xAD; 0xBE; 0xEF; 0x22], 40, snd out))
    by (vm_compute; reflexivity).
  split; [exact E|].
  apply (proj1 (anticoll_checksum _I2C_ADDRESS _TAG_CMD_ANTCOL1 d _ _ _ _ E)
           0xDE 0xAD 0xBE 0xEF 0x22 eq_refl).
  reflexivity.
Defined.

(** After a detected tag, a checksum mismatch at level 1 makes [readTagID]
    return the identifier [[0]], which is not empty. *)
Lemma readTagID_failure_not_empty :
  let s := self_of (sim_of script_checksum_mismatch) in
  present (fst (detect_retry _I2C_ADDRESS s)) = true /\
  fst (fst (_anticoll _I2C_ADDRESS _TAG_CMD_ANTCOL1
              (i2c (snd (detect_retry _I2C_ADDRESS s))))) = ERR /\
  fst (readTagID _I2C_ADDRESS s)
  = {| success := false; id_integers := [0]; id_formatted := ""; type := "" |} /\
  id_integers (fst (readTagID _I2C_ADDRESS s)) <> [].
Proof.
  cbv zeta. repeat split; try (vm_compute; reflexivity).
  vm_compute. discriminate.
Qed.

Lemma checksum_mismatch_fails :
  cascade_failure _I2C_ADDRESS
    (i2c (snd (detect_retry _I2C_ADDRESS
                 (self_of (sim_of script_checksum_mismatch))))).
Proof.
  pose (d := i2c (snd (detect_retry _I2C_ADDRESS
                         (self_of (sim_of script_checksum_mismatch))))).
  apply (fail_anticoll1 _I2C_ADDRESS d ERR [0x88; 0x04; 0x12; 0x34; 0x00]
           (snd (_anticoll _I2C_ADDRESS _TAG_CMD_ANTCOL1 d))).
  - vm_compute. reflexivity.
  - discriminate.
Defined.

Lemma cascade_failure_result_witness :
  fst (_readTagID _I2C_ADDRESS
         (i2c (snd (detect_retry _I2C_ADDRESS
                      (self_of (sim_of script_checksum_mismatch))))))
  = {| success := false; id_integers := []; id_formatted := ""; type := "" |} /\
  fst (readTagID _I2C_ADDRESS (self_of (sim_of script_checksum_mismatch)))
  = {| success := false; id_integers := [0]; id_formatted := ""; type := "" |}.
Proof.
  split.
  - apply (proj1 (cascade_failure_result _I2C_ADDRESS)).
    exact checksum_mismatch_fails.
  - apply (proj2 (cascade_failure_result _I2C_ADDRESS)).
    + vm_compute. reflexivity.
    + exact checksum_mismatch_fails.
Defined.


Lemma tocard_poll_budget_witness :
  irq_quiet _I2C_ADDRESS (tocard_wait_irq _CMD_TRANCEIVE) (Z.to_nat 20000)
    (tocard_start _I2C_ADDRESS _CMD_TRANCEIVE [0x26] (sim_of [])) = true /\
  fst (_tocard _I2C_ADDRESS _CMD_TRANCEIVE [0x26] (sim_of [])) = (ERR, [], 0).
Proof.
  assert (Hq : irq_quiet _I2C_ADDRESS (tocard_wait_irq _CMD_TRANCEIVE)
                 (Z.to_nat 20000)
                 (tocard_start _I2C_ADDRESS _CMD_TRANCEIVE [0x26] (sim_of []))
               = true) by (vm_compute; reflexivity).
  split; [exact Hq|].
  rewrite (proj2 (tocard_poll_budget _I2C_ADDRESS _CMD_TRANCEIVE [0x26]
                    (sim_of [])) Hq).
  reflexivity.
Defined.

Lemma format_round_trip_witness :
  parse_uid "04:12:34:01:02:03:04"
  = Some [0x04; 0x12; 0x34; 0x01; 0x02; 0x03; 0x04].
Proof.
  apply (format_round_trip [0x04; 0x12; 0x34; 0x01; 0x02; 0x03; 0x04]).
  - repeat (apply Forall_cons; [unfold is_byte; lia|]). apply Forall_nil.
  - right; left; reflexivity.
Defined.

(** C3 (the code does otherwise).  A ten-byte tag whose script ends with
    the level-3 anticollision: [_readTagID] succeeds with the ten bytes
    having used up the script, no select frame for level 3 was sent (one
    was for level 2), and a level-3 select from the state reached returns
    0. *)
Theorem level3_select_missing :
  let out := _readTagID _I2C_ADDRESS (sim_of script_three_levels) in
  fst out
  = {| success := true;
       id_integers := [0x04; 0x12; 0x34; 0x56; 0x78; 0x9A; 0xBC; 0xDE; 0xF0; 0x11];
       id_formatted := "04:12:34:56:78:9A:BC:DE:F0:11";
       type := "ntag" |} /\
  script (snd out) = [] /\
  select_sent _TAG_CMD_ANTCOL2 (log (snd out)) = true /\
  select_sent _TAG_CMD_ANTCOL3 (log (snd out)) = false /\
  fst (_selectTag _I2C_ADDRESS [0xBC; 0xDE; 0xF0; 0x11; 0x83]
         _TAG_CMD_ANTCOL3 (snd out)) = 0.
Proof. cbv zeta. repeat split; vm_compute; reflexivity. Qed.

(** * Further properties of the driver *)

Section Runner.

Context {D : Type} `{I2C D}.
Variable address : Z.

(** ** The command runner, once more *)

Lemma tocard_receive_bits (d : D) :
  -7 <= snd (fst (tocard_receive address d)) <= 2040.
Proof.
  unfold tocard_receive.
  pose proof (rreg_byte address _REG_FIFO_LEVEL d) as Hn.
  destruct (_rreg address _REG_FIFO_LEVEL d) as [n d1].
  destruct (_rreg address _REG_CONTROL d1) as [c d2].
  pose proof (land7_range c) as Hl.
  destruct (drain_fifo address _ d2) as [recv d3].
  cbn [fst snd] in *. unfold is_byte in Hn.
  destruct (Z.eqb_spec (Z.land c 7) 0); cbn [negb]; lia.
Qed.

(** X1.  [_tocard] returns [NOTAGERR] only for a transceive, and then with
    no byte and a bit count of 0; an authenticate, whose interrupt mask
    0x12 has bit 0 clear, never gives [NOTAGERR]. *)
Theorem tocard_notag_transceive_only cmd send (d : D) st recv bits d' :
  _tocard address cmd send d = (st, recv, bits, d') ->
  st = NOTAGERR ->
  cmd = _CMD_TRANCEIVE /\ recv = [] /\ bits = 0.
Proof.
  unfold _tocard.
  destruct (tocard_poll address _ _ _) as [[n i] d1].
  unfold tocard_finish.
  destruct i as [|i]; [intros [= <- _ _ _]; discriminate|].
  destruct (_rreg address _REG_ERROR _) as [e d2].
  destruct (Z.land e 27 =? 0); [|intros [= <- _ _ _]; discriminate].
  unfold tocard_irq_en.
  destruct (Z.eqb_spec cmd _CMD_MF_AUTHENT) as [->|Ha].
  - replace (Z.land (Z.land n 18) 1) with 0
      by (rewrite <- Z.land_assoc; cbn; now rewrite Z.land_0_r).
    cbn. intros [= <- _ _ _]; discriminate.
  - destruct (Z.eqb_spec cmd _CMD_TRANCEIVE) as [->|Ht].
    + destruct (truthy _).
      * intros [= _ <- <- _] _. repeat split.
      * destruct (tocard_receive address d2) as [[r b] d3].
        intros [= <- _ _ _]; discriminate.
    + rewrite Z.land_0_r. cbn. intros [= <- _ _ _]; discriminate.
Qed.

(** X2.  What [_tocard] returns besides the status: nothing (no byte, bit
    count 0) for a command other than transceive and for every status
    other than [OK]; for a transceive that ends [OK], between 1 and 16
    bytes, each in 0..255, with a bit count between -7 and 2040. *)
Theorem tocard_response cmd send (d : D) st recv bits d' :
  _tocard address cmd send d = (st, recv, bits, d') ->
  (cmd <> _CMD_TRANCEIVE \/ st <> OK -> recv = [] /\ bits = 0) /\
  (cmd = _CMD_TRANCEIVE -> st = OK ->
   (1 <= List.length recv <= 16)%nat /\ Forall is_byte recv /\
   -7 <= bits <= 2040).
Proof.
  intros E. pose proof (tocard_cases address cmd send d) as Hc.
  rewrite E in Hc. split.
  - intros Hor. destruct Hc as [Hc|(-> & -> & _)]; [exact Hc|].
    destruct Hor; congruence.
  - intros -> ->. clear Hc. revert E. unfold _tocard.
    destruct (tocard_poll address _ _ _) as [[n i] d1].
    unfold tocard_finish.
    destruct i as [|i]; [discriminate|].
    destruct (_rreg address _REG_ERROR _) as [e d2].
    destruct (Z.land e 27 =? 0); [|discriminate].
    destruct (truthy _); [discriminate|]. cbn [Z.eqb Pos.eqb].
    pose proof (tocard_receive_spec address d2) as Hs.
    pose proof (tocard_receive_bits d2) as Hb.
    destruct (tocard_receive address d2) as [[r b] d3].
    cbn [fst snd] in Hb. cbv zeta in Hs.
    intros [= <- <- _]. tauto.
Qed.

(** ** The CRC co-processor *)

Lemma crc_poll_reads k (d : D) :
  exists m, (1 <= m <= S k)%nat /\
    crc_poll address k d = Nat.iter m (read_div_irq address) d.
Proof.
  revert d. induction k as [|k IH]; intros d; cbn [crc_poll];
    destruct (_rreg address _REG_DIV_IRQ d) as [n d1] eqn:E;
    assert (E1 : read_div_irq address d = d1)
      by (unfold read_div_irq; now rewrite E).
  - exists 1%nat. split; [lia|]. cbn. now rewrite E1.
  - destruct (truthy _).
    + exists 1%nat. split; [lia|]. cbn. now rewrite E1.
    + destruct (IH d1) as (m & Hm & Hs). exists (S m). split; [lia|].
      now rewrite Nat.iter_succ_r, E1.
Qed.

(** X3.  [_crc] always returns: its poll reads the divider
    interrupt-request register at least once and at most 255 times, and
    the result is a list of exactly two bytes, whether or not the CRC-done
    bit ever showed. *)
Theorem crc_returns_two_bytes data (d : D) :
  (forall d0 : D, exists m, (1 <= m <= 255)%nat /\
     crc_poll address 254 d0 = Nat.iter m (read_div_irq address) d0) /\
  exists lsb msb,
    fst (_crc address data d) = [lsb; msb] /\ is_byte lsb /\ is_byte msb.
Proof.
  split.
  - intros d0. destruct (crc_poll_reads 254 d0) as (m & Hm & Hs).
    exists m. split; [lia|exact Hs].
  - unfold _crc.
    set (d3 := _wreg address _REG_COMMAND _CMD_IDLE _). clearbody d3.
    pose proof (rreg_byte address _REG_CRC_RESULT_LSB d3) as B1.
    destruct (_rreg address _REG_CRC_RESULT_LSB d3) as [lsb d4].
    pose proof (rreg_byte address _REG_CRC_RESULT_MSB d4) as B2.
    destruct (_rreg address _REG_CRC_RESULT_MSB d4) as [msb d5].
    exists lsb, msb. split; [reflexivity|split; assumption].
Qed.

(** ** Request and detection *)

(** X4.  [_request] gives [OK] exactly when its transceive ends [OK] with
    16 bits and [ERR] in every other case, [NOTAGERR] included; the second
    component it returns, which [_detectTag] stores under ['ATQA'], is the
    bit count of the response.  [_detectTag] reports the tag present
    exactly in the [OK] case and records the same in [_tag_present]. *)
Theorem detectTag_present (s : self) :
  let '(st, _, bits, d') :=
    _tocard address _CMD_TRANCEIVE [_TAG_CMD_REQIDL]
      (_wreg address _REG_BIT_FRAMING 0x07 (i2c s)) in
  _request address _TAG_CMD_REQIDL (i2c s)
  = (if status_eqb st OK && (bits =? 0x10) then OK else ERR, bits, d') /\
  let '(r, s') := _detectTag address s in
  (present r = true <-> st = OK /\ bits = 0x10) /\
  ATQA r = bits /\
  _tag_present s' = present r /\
  _read_tag_id_success s' = _read_tag_id_success s /\
  i2c s' = d'.
Proof.
  unfold _detectTag, _request.
  destruct (_tocard address _CMD_TRANCEIVE [_TAG_CMD_REQIDL] _)
    as [[[st recv] bits] d'].
  destruct st; cbn [status_eqb negb orb andb];
    destruct (Z.eqb_spec bits 16); cbn [negb status_eqb present ATQA
      _tag_present _read_tag_id_success i2c];
    repeat split; try reflexivity; try discriminate; try assumption;
    try (intros [? ?]; congruence).
Qed.

End Runner.

Ltac bytes_inv :=
  repeat match goal with
         | F : Forall is_byte (_ :: _) |- _ => inversion F; clear F; subst
         end.

Ltac bytes_goal :=
  cbn [app]; repeat (apply Forall_cons; [assumption|]); apply Forall_nil.

Section Identification.

Context {D : Type} `{I2C D}.
Variable address : Z.

(** ** The cascade, once more *)

(** X5.  Three levels: when the level-1 and level-2 fragments both start
    with 0x88, both selects return 1 and the level-3 anticollision
    returns [OK], [_readTagID] returns success with the ten bytes made of
    bytes 1 to 3 of the first two fragments and bytes 0 to 3 of the third,
    kind ["ntag"], and leaves the bus as the level-3 anticollision left
    it.  The first byte of the level-3 fragment is not examined. *)
Theorem readTagID_three_levels (d0 : D)
    a1 a2 a3 ca d1 d2 b1 b2 b3 cb d3 d4 c0 c1 c2 c3 cc d5 :
  _anticoll address _TAG_CMD_ANTCOL1 d0 = (OK, [0x88; a1; a2; a3; ca], d1) ->
  _selectTag address [0x88; a1; a2; a3; ca] _TAG_CMD_ANTCOL1 d1 = (1, d2) ->
  _anticoll address _TAG_CMD_ANTCOL2 d2 = (OK, [0x88; b1; b2; b3; cb], d3) ->
  _selectTag address [0x88; b1; b2; b3; cb] _TAG_CMD_ANTCOL2 d3 = (1, d4) ->
  _anticoll address _TAG_CMD_ANTCOL3 d4 = (OK, [c0; c1; c2; c3; cc], d5) ->
  _readTagID address d0
  = ({| success := true;
        id_integers := [a1; a2; a3; b1; b2; b3; c0; c1; c2; c3];
        id_formatted := colon_hex [a1; a2; a3; b1; b2; b3; c0; c1; c2; c3];
        type := "ntag" |}, d5).
Proof.
  intros A1 S1 A2 S2 A3.
  destruct (anticoll_OK _ _ _ _ _ A1) as [F1 _].
  destruct (anticoll_OK _ _ _ _ _ A2) as [F2 _].
  destruct (anticoll_OK _ _ _ _ _ A3) as [F3 _].
  unfold _readTagID. rewrite A1. cbn [status_eqb negb]. rewrite S1.
  cbn [Z.eqb nth Pos.eqb]. unfold level2. rewrite A2. cbn [status_eqb negb].
  rewrite S2. cbn [Z.eqb nth Pos.eqb]. unfold level3. rewrite A3.
  cbn [status_eqb negb].
  change (([] ++ slice 1 4 [136; a1; a2; a3; ca]) ++ slice 1 4 [136; b1; b2; b3; cb])
    with [a1; a2; a3; b1; b2; b3].
  bytes_inv. rewrite finish_five by bytes_goal. reflexivity.
Qed.

(** X6.  The closed postcondition of [_readTagID]: it reports no success
    exactly on a cascade failure, and then returns the initial dictionary;
    otherwise it returns 4, 7 or 10 bytes, each in 0..255, their
    colon-separated uppercase rendering, and the kind ["classic"] for 4
    bytes and ["ntag"] for 7 and 10. *)
Theorem readTagID_postcondition (d : D) :
  let r := fst (_readTagID address d) in
  (success r = false <-> cascade_failure address d) /\
  (success r = false ->
   r = {| success := false; id_integers := [];
          id_formatted := ""; type := "" |}) /\
  (success r = true ->
   exists id,
     Forall is_byte id /\
     (List.length id = 4%nat \/ List.length id = 7%nat \/ List.length id = 10%nat) /\
     r = {| success := true; id_integers := id; id_formatted := colon_hex id;
            type := if (List.length id =? 4)%nat
                    then "classic"%string else "ntag"%string |}).
Proof.
  cbv zeta. split; [split|split].
  - apply readTagID_fails_only.
  - intros Hf. now rewrite (readTagID_fails address d Hf).
  - intros Hs. apply readTagID_fails, readTagID_fails_only, Hs.
  - apply readTagID_success.
Qed.

(** ** The stand-alone entry point *)

Lemma detectTag_flag (s : self) :
  _tag_present (snd (_detectTag address s))
  = present (fst (_detectTag address s)).
Proof.
  unfold _detectTag.
  destruct (_request address _TAG_CMD_REQIDL (i2c s)) as [[st atqa] d].
  reflexivity.
Qed.

Lemma detect_retry_flag (s : self) :
  _tag_present (snd (detect_retry address s))
  = present (fst (detect_retry address s)).
Proof.
  unfold detect_retry. pose proof (detectTag_flag s) as H1.
  destruct (_detectTag address s) as [r1 s1]. cbn [fst snd] in H1.
  destruct (present r1) eqn:Hp; cbn [negb fst snd];
    [now rewrite Hp|apply detectTag_flag].
Qed.

(** What [readTagID] returns and leaves, in terms of the detection and of
    the cascade run from the bus state the detection left. *)
Lemma readTagID_unfold (s : self) :
  let detect := detect_retry address s in
  let inner := _readTagID address (i2c (snd detect)) in
  readTagID address s
  = if present (fst detect) then
      if success (fst inner) then
        (fst inner,
         {| i2c := snd inner; _tag_present := true;
            _read_tag_id_success := true |})
      else
        (read_failed,
         {| i2c := snd inner; _tag_present := true;
            _read_tag_id_success := false |})
    else
      (read_failed,
       {| i2c := i2c (snd detect); _tag_present := false;
          _read_tag_id_success := false |}).
Proof.
  cbv zeta. unfold readTagID. pose proof (detect_retry_flag s) as Hf.
  destruct (detect_retry address s) as [r s1]. cbn [fst snd] in *.
  destruct (present r).
  - destruct (_readTagID address (i2c s1)) as [t d]. cbn [fst snd].
    rewrite Hf. destruct t as [sc ids fm ty]. cbn [success].
    destruct sc; reflexivity.
  - rewrite Hf. reflexivity.
Qed.

(** X7.  [readTagID] succeeds exactly when the detection (with its retry)
    found a tag and the cascade succeeded, and then returns what
    [_readTagID] returned; in every other case it returns the failure
    dictionary with [id_integers = [0]].  Afterwards [_read_tag_id_success]
    holds the success returned and [_tag_present] holds the outcome of the
    detection. *)
Theorem readTagID_public (s : self) :
  let detect := detect_retry address s in
  let inner := fst (_readTagID address (i2c (snd detect))) in
  let r := fst (readTagID address s) in
  let s' := snd (readTagID address s) in
  (success r = true <-> present (fst detect) = true /\ success inner = true) /\
  (success r = true -> r = inner) /\
  (success r = false ->
   r = {| success := false; id_integers := [0];
          id_formatted := ""; type := "" |}) /\
  _read_tag_id_success s' = success r /\
  _tag_present s' = present (fst detect).
Proof.
  cbv zeta. rewrite readTagID_unfold. cbv zeta.
  destruct (present (fst (detect_retry address s))).
  - destruct (success (fst (_readTagID address _))) eqn:Hs;
      cbn [fst snd success read_failed _read_tag_id_success _tag_present];
      rewrite ?Hs; intuition congruence.
  - cbn [fst snd success read_failed _read_tag_id_success _tag_present].
    intuition congruence.
Qed.

(** X8.  The retry of [readTagID]: a first detection that finds the tag
    is not repeated, and the cascade runs from the bus state it left; a
    first detection that finds none is followed by exactly one more,
    whatever that one finds.  When the second finds the tag, the cascade
    runs from the bus state the second left and decides the result; when
    it finds none either, [readTagID] returns the failure dictionary and
    leaves the bus as the second detection left it, no anticollision and
    no select being sent. *)
Theorem readTagID_retry (s : self) :
  let first := _detectTag address s in
  let second := _detectTag address (snd first) in
  let identify (after : self) :=
    let inner := _readTagID address (i2c after) in
    if success (fst inner) then
      (fst inner,
       {| i2c := snd inner; _tag_present := true;
          _read_tag_id_success := true |})
    else
      ({| success := false; id_integers := [0];
          id_formatted := ""; type := "" |},
       {| i2c := snd inner; _tag_present := true;
          _read_tag_id_success := false |}) in
  (present (fst first) = true ->
   detect_retry address s = first /\
   readTagID address s = identify (snd first)) /\
  (present (fst first) = false -> detect_retry address s = second) /\
  (present (fst first) = false -> present (fst second) = true ->
   readTagID address s = identify (snd second)) /\
  (present (fst first) = false -> present (fst second) = false ->
   readTagID address s
   = ({| success := false; id_integers := [0];
         id_formatted := ""; type := "" |},
      {| i2c := i2c (snd second);
         _tag_present := false; _read_tag_id_success := false |})).
Proof.
  cbv zeta.
  assert (E1 : present (fst (_detectTag address s)) = true ->
               detect_retry address s = _detectTag address s).
  { unfold detect_retry. destruct (_detectTag address s) as [r1 s1].
    cbn [fst]. now intros ->. }
  assert (E2 : present (fst (_detectTag address s)) = false ->
               detect_retry address s
               = _detectTag address (snd (_detectTag address s))).
  { unfold detect_retry. destruct (_detectTag address s) as [r1 s1].
    cbn [fst snd]. now intros ->. }
  split; [|split; [exact E2|split]].
  - intros H1. split; [exact (E1 H1)|].
    rewrite readTagID_unfold. cbv zeta. rewrite (E1 H1), H1. reflexivity.
  - intros H1 H2. rewrite readTagID_unfold. cbv zeta.
    rewrite (E2 H1), H2. reflexivity.
  - intros H1 H2. rewrite readTagID_unfold. cbv zeta.
    rewrite (E2 H1), H2. reflexivity.
Qed.

End Identification.

(** ** Which frames reach the bus

    On the replaying bus the log tells which anticollision and select
    frames were sent.  Only [_wfifo], called once by [_tocard], writes a
    transfer of more than one byte. *)

Section Frames.

Variable address : Z.
Variables a b : Z.

Local Notation "'sent' d" := (frame_sent a b (log d)) (at level 10, d at level 9).

Lemma sent_rreg reg (d : sim) : sent (snd (_rreg address reg d)) = sent d.
Proof. reflexivity. Qed.

Lemma sent_wreg reg val (d : sim) : sent (_wreg address reg val d) = sent d.
Proof. reflexivity. Qed.

Lemma sent_sflags reg mask (d : sim) : sent (_sflags address reg mask d) = sent d.
Proof. reflexivity. Qed.

Lemma sent_cflags reg mask (d : sim) : sent (_cflags address reg mask d) = sent d.
Proof. reflexivity. Qed.

Lemma sent_poll w k (d : sim) : sent (snd (tocard_poll address w k d)) = sent d.
Proof.
  revert d. induction k as [|k IH]; intros d; cbn [tocard_poll];
    pose proof (sent_rreg _REG_COM_IRQ d) as Hr;
    destruct (_rreg address _REG_COM_IRQ d) as [n d1]; cbn [snd] in Hr;
    destruct (truthy _); try exact Hr; destruct (truthy _); try exact Hr.
  now rewrite IH.
Qed.

Lemma sent_drain n (d : sim) : sent (snd (drain_fifo address n d)) = sent d.
Proof.
  revert d. induction n as [|n IH]; intros d; cbn [drain_fifo]; [reflexivity|].
  pose proof (sent_rreg _REG_FIFO_DATA d) as Hr.
  destruct (_rreg address _REG_FIFO_DATA d) as [x d1]. cbn [snd] in Hr.
  specialize (IH d1). destruct (drain_fifo address n d1) as [recv d2].
  cbn [snd] in *. congruence.
Qed.

Lemma sent_tocard cmd send (d : sim) :
  sent (snd (_tocard address cmd send d))
  = is_frame a b (Wr _REG_FIFO_DATA send) || sent d.
Proof.
  unfold _tocard.
  assert (H0 : sent (tocard_start address cmd send d)
               = is_frame a b (Wr _REG_FIFO_DATA send) || sent d)
    by (unfold tocard_start; destruct (cmd =? _CMD_TRANCEIVE); reflexivity).
  pose proof (sent_poll (tocard_wait_irq cmd) (Z.to_nat (20000 - 1))
                (tocard_start address cmd send d)) as H1.
  destruct (tocard_poll address _ _ _) as [[n i] d1]. cbn [snd] in H1.
  rewrite <- H0, <- H1. clear H0 H1.
  unfold tocard_finish.
  pose proof (sent_cflags _REG_BIT_FRAMING 128 d1) as H2.
  destruct i as [|i]; [exact H2|].
  pose proof (sent_rreg _REG_ERROR (_cflags address _REG_BIT_FRAMING 128 d1)) as H3.
  destruct (_rreg address _REG_ERROR _) as [e d2]. cbn [snd] in H3.
  rewrite <- H2, <- H3. clear H2 H3.
  destruct (Z.land e 27 =? 0); [|reflexivity].
  destruct (truthy _); [reflexivity|].
  destruct (cmd =? _CMD_TRANCEIVE); [|reflexivity].
  unfold tocard_receive.
  pose proof (sent_rreg _REG_FIFO_LEVEL d2) as H4.
  destruct (_rreg address _REG_FIFO_LEVEL d2) as [m d3]. cbn [snd] in H4.
  pose proof (sent_rreg _REG_CONTROL d3) as H5.
  destruct (_rreg address _REG_CONTROL d3) as [c d4]. cbn [snd] in H5.
  pose proof (sent_drain
                (Z.to_nat (if m =? 0 then 1 else if m >? 16 then 16 else m)) d4)
    as H6.
  destruct (drain_fifo address _ d4) as [recv d5]. cbn [snd] in *. congruence.
Qed.

Lemma sent_crc data (d : sim) : sent (snd (_crc address data d)) = sent d.
Proof.
  unfold _crc.
  set (d1 := _sflags address _REG_FIFO_LEVEL 128 _).
  assert (H1 : sent d1 = sent d) by reflexivity. clearbody d1.
  assert (H2 : sent (crc_push address data d1) = sent d).
  { rewrite <- H1. clear H1. revert d1.
    induction data as [|c rest IH]; intros d1; cbn [crc_push]; [reflexivity|].
    now rewrite IH. }
  set (d2 := _wreg address _REG_COMMAND _CMD_CALC_CRC _).
  assert (H3 : sent d2 = sent d) by exact H2. clearbody d2.
  assert (H4 : sent (crc_poll address 254 d2) = sent d).
  { rewrite <- H3. clear H3. generalize 254%nat as k. intros k. revert d2.
    induction k as [|k IH]; intros d2; cbn [crc_poll];
      pose proof (sent_rreg _REG_DIV_IRQ d2) as Hr;
      destruct (_rreg address _REG_DIV_IRQ d2) as [n d3]; cbn [snd] in Hr;
      [exact Hr|].
    destruct (truthy _); [exact Hr|]. now rewrite IH. }
  set (d3 := _wreg address _REG_COMMAND _CMD_IDLE _).
  assert (H5 : sent d3 = sent d) by exact H4. clearbody d3.
  pose proof (sent_rreg _REG_CRC_RESULT_LSB d3) as H6.
  destruct (_rreg address _REG_CRC_RESULT_LSB d3) as [lsb d4]. cbn [snd] in H6.
  pose proof (sent_rreg _REG_CRC_RESULT_MSB d4) as H7.
  destruct (_rreg address _REG_CRC_RESULT_MSB d4) as [msb d5]. cbn [snd] in *.
  congruence.
Qed.

(** An anticollision sends the frame [anticolN, 0x20] and no other. *)
Lemma sent_anticoll anticolN (d : sim) :
  sent (snd (_anticoll address anticolN d))
  = (anticolN =? a) && (0x20 =? b) || sent d.
Proof.
  unfold _anticoll.
  pose proof (sent_tocard _CMD_TRANCEIVE [anticolN; 32]
                (_wreg address _REG_BIT_FRAMING 0 d)) as Ht.
  destruct (_tocard address _CMD_TRANCEIVE [anticolN; 32] _)
    as [[[st recv] bits] d1].
  exact Ht.
Qed.

(** A select sends the frame [anticolN, 0x70, ...] and no other. *)
Lemma sent_selectTag serNum anticolN (d : sim) :
  sent (snd (_selectTag address serNum anticolN d))
  = (anticolN =? a) && (0x70 =? b) || sent d.
Proof.
  unfold _selectTag.
  pose proof (sent_crc ([anticolN; 112] ++ serNum) d) as Hc.
  destruct (_crc address ([anticolN; 112] ++ serNum) d) as [pOut d1].
  cbn [snd] in Hc.
  pose proof (sent_tocard 12
                (([anticolN; 112] ++ serNum) ++ [nth 0 pOut 0; nth 1 pOut 0]) d1)
    as Ht.
  destruct (_tocard address 12 _ d1) as [[[st back] backLen] d2].
  cbn [snd] in Ht.
  destruct (status_eqb st OK && (backLen =? 24)); cbn [snd];
    rewrite Ht, Hc; reflexivity.
Qed.

End Frames.




(** ** The antenna and the constructor *)

(** X9.  On a register file [antennaOn] always rewrites the tx-control
    register: whatever it held, it then holds the old value with bits 0,
    1 and 7 set, and no other register changes. *)
Theorem antennaOn_regfile (address : Z) (m : regfile) :
  let m' := antennaOn address m in
  Z.of_N (Byte.to_N (m' _REG_TX_CONTROL))
  = Z.lor (Z.of_N (Byte.to_N (m _REG_TX_CONTROL))) 0x83 /\
  forall reg, reg <> _REG_TX_CONTROL -> m' reg = m reg.
Proof.
  cbv zeta. rewrite antennaOn_always_sets.
  unfold _sflags, _wreg, _rreg. cbn [readfrom_mem writeto_mem regfile_I2C snd].
  split.
  - rewrite Z.eqb_refl. destruct (m _REG_TX_CONTROL); reflexivity.
  - intros reg Hreg. apply Z.eqb_neq in Hreg. now rewrite Hreg.
Qed.

(** X10.  The address the constructor takes from the switch positions: a
    list is accepted exactly when it has two entries, each 0 or 1, and
    then gives 0x2C + asw[0] + 2*asw[1], that is 0x2C, 0x2D, 0x2E or 0x2F
    as in the table at the head of the file; any other list raises, and
    without a list the [address] argument is used. *)
Theorem init_address_table (address : Z) :
  (forall l a,
     init_address address (Some l) = Some a <->
     exists s1 s2, l = [s1; s2] /\ (s1 = 0 \/ s1 = 1) /\ (s2 = 0 \/ s2 = 1) /\
                   a = 0x2C + s1 + 2 * s2) /\
  init_address address (Some [0; 0]) = Some 0x2C /\
  init_address address (Some [1; 0]) = Some 0x2D /\
  init_address address (Some [0; 1]) = Some 0x2E /\
  init_address address (Some [1; 1]) = Some 0x2F /\
  init_address address None = Some address.
Proof.
  split; [|repeat split].
  intros l a. split.
  - destruct l as [|x [|y [|z rest]]]; cbn [init_address]; try discriminate.
    + cbn [List.length Nat.eqb]. rewrite andb_false_r. discriminate.
    + unfold list_max, list_min. cbn [fold_left List.length Nat.eqb nth].
      destruct (Z.leb_spec (Z.max x y) 1); cbn [andb]; [|discriminate].
      rewrite Z.geb_leb.
      destruct (Z.leb_spec 0 (Z.min x y)); cbn [andb]; [|discriminate].
      intros [= <-]. exists x, y. unfold _I2C_ADDRESS.
      repeat split; lia.
    + cbn [List.length Nat.eqb]. rewrite andb_false_r. discriminate.
  - intros (s1 & s2 & -> & H1 & H2 & ->).
    destruct H1 as [-> | ->], H2 as [-> | ->]; reflexivity.
Qed.

(** X11.  On a register file, whatever it held, a constructor that does
    not raise leaves the soft-reset command in the command register, the
    timer, modulation, mode and interrupt registers at the values of lines
    81-88, the tx-control register with bits 0, 1 and 7 set (the antenna
    is on), and both flags of the object false. *)
Theorem init_regfile (m : regfile) address asw a (s : self) :
  __init__ m address asw = Some (a, s) ->
  init_address address asw = Some a /\
  i2c s _REG_COMMAND = Byte.x0f /\
  i2c s _REG_T_MODE = Byte.x80 /\
  i2c s _REG_T_PRESCALER = Byte.xa9 /\
  i2c s _REG_T_RELOAD_HI = Byte.x03 /\
  i2c s _REG_T_RELOAD_LO = Byte.xe8 /\
  i2c s _REG_TX_ASK = Byte.x40 /\
  i2c s _REG_MODE = Byte.x3d /\
  i2c s _REG_DIV_I_EN = Byte.x80 /\
  i2c s _REG_COM_I_EN = Byte.x20 /\
  Z.land (Z.of_N (Byte.to_N (i2c s _REG_TX_CONTROL))) 0x83 = 0x83 /\
  _tag_present s = false /\ _read_tag_id_success s = false.
Proof.
  unfold __init__. destruct (init_address address asw) as [a'|]; [|discriminate].
  intros [= <- <-]. cbn [i2c _tag_present _read_tag_id_success].
  split; [reflexivity|].
  match goal with |- context [antennaOn a' ?m1] => set (m0 := m1) end.
  assert (Hon :
    Z.of_N (Byte.to_N (antennaOn (D := regfile) a' m0 _REG_TX_CONTROL))
    = Z.lor (Z.of_N (Byte.to_N (m0 _REG_TX_CONTROL))) 0x83 /\
    forall reg, reg <> _REG_TX_CONTROL ->
                antennaOn (D := regfile) a' m0 reg = m0 reg).
  { rewrite antennaOn_always_sets.
    unfold _sflags, _wreg, _rreg.
    cbn [readfrom_mem writeto_mem regfile_I2C snd]. split.
    - rewrite Z.eqb_refl. destruct (m0 _REG_TX_CONTROL); reflexivity.
    - intros reg Hreg. apply Z.eqb_neq in Hreg. now rewrite Hreg. }
  destruct Hon as [Htx Hother].
  repeat (split; [rewrite Hother by discriminate; reflexivity|]).
  split; [|split; reflexivity].
  rewrite Htx. subst m0. unfold reset, _wreg. cbn [writeto_mem regfile_I2C].
  change (Z.land (Z.lor (Z.of_N (Byte.to_N (m _REG_TX_CONTROL))) 131) 131 = 131).
  destruct (m _REG_TX_CONTROL); reflexivity.
Qed.

(** ** Only bytes are written, once more *)

Section BusSafety.

Context {D : Type} `{I2C D} {F : Type} `{FileSystem F}.
Variable address : Z.
Variable P : D -> Prop.
Hypothesis read_keeps : forall d reg,
  P d -> P (snd (readfrom_mem d address reg)).
Hypothesis write_keeps : forall d reg data,
  Forall is_byte data -> P d -> P (writeto_mem d address reg data).

Lemma antennaOn_keeps d : P d -> P (antennaOn address d).
Proof.
  intros Hd. rewrite antennaOn_always_sets.
  apply (sflags_keeps address P read_keeps write_keeps);
    [unfold is_byte; lia|].
  now apply (rreg_keeps address P read_keeps).
Qed.

Lemma tagPresent_keeps s : P (i2c s) -> P (i2c (snd (tagPresent address s))).
Proof.
  intros Hs. unfold tagPresent.
  pose proof (readTagID_keeps address P read_keeps write_keeps s Hs) as Hr.
  destruct (readTagID address s). exact Hr.
Qed.

Lemma readID_keeps detail s :
  P (i2c s) -> P (i2c (snd (readID address detail s))).
Proof.
  intros Hs. unfold readID.
  pose proof (readTagID_keeps address P read_keeps write_keeps s Hs) as Hr.
  destruct (readTagID address s). destruct detail; exact Hr.
Qed.

Lemma scan_card_keeps s : P (i2c s) -> P (i2c (snd (scan_card address s))).
Proof.
  intros Hs. unfold scan_card.
  pose proof (tagPresent_keeps s Hs) as H1.
  destruct (tagPresent address s) as [found s1]. cbn [snd] in H1.
  destruct found; [|exact H1].
  pose proof (readID_keeps false s1 H1) as H2.
  destruct (readID address false s1) as [r s2]. exact H2.
Qed.

Lemma scans_keep list_name s (st : store) :
  P (i2c s) ->
  P (i2c (fst (fst (scan_and_add_card address list_name s st)))) /\
  P (i2c (snd (fst (scan_and_check address list_name s st)))) /\
  P (i2c (fst (fst (scan_and_remove_card address list_name s st)))).
Proof.
  intros Hs. unfold scan_and_add_card, scan_and_check, scan_and_remove_card.
  pose proof (scan_card_keeps s Hs) as H1.
  destruct (scan_card address s) as [uuid s1]. cbn [snd] in H1.
  repeat split.
  - destruct (String.eqb uuid ""); [exact H1|].
    destruct (negb _); [|exact H1].
    destruct (save_list _ _) as [st1 []]; exact H1.
  - destruct (String.eqb uuid ""); exact H1.
  - destruct (contains uuid _); [|exact H1].
    destruct (list_remove uuid _); [destruct (fs_remove _ _); exact H1|].
    destruct (save_list _ _) as [st1 []]; exact H1.
Qed.

End BusSafety.

Lemma init_keeps {D : Type} `{I2C D} (P : D -> Prop) (d : D) address asw a s :
  (forall d reg data,
     Forall is_byte data -> P d -> P (writeto_mem d a reg data)) ->
  (forall d reg, P d -> P (snd (readfrom_mem d a reg))) ->
  __init__ d address asw = Some (a, s) -> P d -> P (i2c s).
Proof.
  intros Hw Hr. unfold __init__.
  destruct (init_address address asw) as [a'|]; [|discriminate].
  intros [= <- <-] Hd. cbn [i2c].
  apply (antennaOn_keeps a' P Hr Hw).
  unfold reset.
  repeat (apply (wreg_keeps a' P Hw); [unfold is_byte; cbv; split; congruence|]).
  exact Hd.
Qed.

(** X12.  On the replaying bus, whatever the script, every transfer
    written by the constructor, by [readTagID], by [scan_card] and by the
    three scanning operations on the allow lists carries integers in
    0..255 only: [bytes(...)] never raises [ValueError]. *)
Theorem driver_writes_bytes {F : Type} `{FileSystem F} (address : Z)
    (script0 : list Z) (list_name : string) (st : store) :
  let d := sim_of script0 in
  let s := self_of d in
  (forall address0 asw s', __init__ d address0 asw = Some (address, s') ->
                            writes_ok (i2c s')) /\
  writes_ok (i2c (snd (readTagID address s))) /\
  writes_ok (i2c (snd (scan_card address s))) /\
  writes_ok (i2c (fst (fst (scan_and_add_card address list_name s st)))) /\
  writes_ok (i2c (snd (fst (scan_and_check address list_name s st)))) /\
  writes_ok (i2c (fst (fst (scan_and_remove_card address list_name s st)))).
Proof.
  cbv zeta.
  assert (Hr : forall (d : sim) reg,
             writes_ok d -> writes_ok (snd (readfrom_mem d address reg)))
    by (intros d reg Hd; constructor; [exact I|exact Hd]).
  assert (Hw : forall (d : sim) reg data,
             Forall is_byte data -> writes_ok d ->
             writes_ok (writeto_mem d address reg data))
    by (intros d reg data Hdata Hd; constructor; [exact Hdata|exact Hd]).
  assert (H0 : writes_ok (sim_of script0)) by constructor.
  split; [|split; [|split]].
  - intros address0 asw s' Hi. exact (init_keeps writes_ok _ _ _ _ _ Hw Hr Hi H0).
  - exact (readTagID_keeps address writes_ok Hr Hw (self_of (sim_of script0)) H0).
  - exact (scan_card_keeps address writes_ok Hr Hw (self_of (sim_of script0)) H0).
  - exact (scans_keep address writes_ok Hr Hw list_name
             (self_of (sim_of script0)) st H0).
Qed.

(** * The allow lists *)

Section StoreFacts.

Context {F : Type} `{FileSystem F}.

Local Open Scope string_scope.

Lemma dict_set_same {V : Type} (m : string -> option V) k v :
  dict_set m k v k = v.
Proof. unfold dict_set. now rewrite String.eqb_refl. Qed.

Lemma dict_set_other {V : Type} (m : string -> option V) k v k' :
  k' <> k -> dict_set m k v k' = m k'.
Proof.
  intros Hne. unfold dict_set. apply String.eqb_neq in Hne. now rewrite Hne.
Qed.

(** After the conditional load that opens every operation, the name is in
    [self.lists]; the load changes nothing else. *)
Lemma loaded_in_lists name (st : store) :
  let st0 := if in_lists name st then st else snd (load_list name st) in
  in_lists name st0 = true /\
  fs st0 = fs st /\ console st0 = console st /\
  (forall k, k <> name -> lists st0 k = lists st k) /\
  lists st0 name = Some (lists_at st0 name).
Proof.
  cbv zeta. unfold in_lists, lists_at, load_list.
  destruct (lists st name) as [l|] eqn:E.
  - rewrite E. repeat split.
  - cbn [snd set_list lists fs console]. rewrite dict_set_same.
    repeat split. intros k Hk. now apply dict_set_other.
Qed.

(** ** Occurrences of a card in a list *)

Lemma contains_occurrences uuid l :
  contains uuid l = false <-> occurrences uuid l = 0%nat.
Proof.
  unfold contains, occurrences. induction l as [|e l IH]; cbn [existsb filter].
  - split; reflexivity.
  - destruct (json_is uuid e); cbn [orb List.length]; [|exact IH].
    split; discriminate.
Qed.

Lemma occurrences_app uuid l1 l2 :
  occurrences uuid (l1 ++ l2)
  = (occurrences uuid l1 + occurrences uuid l2)%nat.
Proof. unfold occurrences. now rewrite filter_app, length_app. Qed.

Lemma json_is_self uuid : json_is uuid (JStr uuid) = true.
Proof. cbn. apply String.eqb_refl. Qed.

Lemma list_remove_occurrences uuid l :
  contains uuid l = true ->
  S (occurrences uuid (list_remove uuid l)) = occurrences uuid l /\
  forall other, other <> uuid ->
    occurrences other (list_remove uuid l) = occurrences other l.
Proof.
  unfold contains, occurrences.
  induction l as [|e l IH]; cbn [existsb list_remove filter]; [discriminate|].
  destruct (json_is uuid e) eqn:Ee; cbn [orb].
  - intros _. split; [reflexivity|]. intros other Hne.
    destruct e; try discriminate. cbn in Ee. apply String.eqb_eq in Ee. subst s.
    cbn [json_is]. apply String.eqb_neq in Hne. now rewrite Hne.
  - intros Hc. destruct (IH Hc) as [H1 H2]. cbn [filter]. rewrite Ee.
    split; [exact H1|]. intros other Hne.
    destruct (json_is other e); cbn [List.length]; now rewrite (H2 other Hne).
Qed.

Lemma list_remove_appended uuid l :
  contains uuid l = false -> list_remove uuid (l ++ [JStr uuid]) = l.
Proof.
  unfold contains. induction l as [|e l IH]; cbn [existsb app list_remove].
  - intros _. now rewrite json_is_self.
  - destruct (json_is uuid e); cbn [orb]; [discriminate|].
    intros Hc. now rewrite (IH Hc).
Qed.

(** ** Loading, saving, clearing *)

(** What [save_list] does to a store whose list for the name is [l]. *)
Lemma save_list_known name (st : store) l :
  lists st name = Some l ->
  save_list name st
  = (with_fs (fst (fs_write (fs st) (filename_of name) (JList l))) st,
     if snd (fs_write (fs st) (filename_of name) (JList l))
     then Returns else RaisesOSError).
Proof.
  intros E. unfold save_list. rewrite E.
  destruct (fs_write (fs st) (filename_of name) (JList l)). reflexivity.
Qed.

(** X13.  [save_list] writes nothing for a name that is not in memory.
    For a name in memory it makes one write, of the list, under the name
    of the list's file; it changes neither the lists in memory nor the
    console, and raises [OSError] exactly when the write does.  When the
    file system, after the write, reads that list back under the name,
    [load_list] returns the list and keeps it in memory. *)
Theorem save_load_round_trip (name : string) (st : store) :
  (lists st name = None -> save_list name st = (st, Returns)) /\
  (forall l, lists st name = Some l ->
     let written := fs_write (fs st) (filename_of name) (JList l) in
     let st1 := fst (save_list name st) in
     lists st1 = lists st /\ console st1 = console st /\
     fs st1 = fst written /\
     snd (save_list name st)
     = (if snd written then Returns else RaisesOSError) /\
     (fs_read (fst written) (filename_of name) = Some (Json (JList l)) ->
      fst (load_list name st1) = l /\
      lists (snd (load_list name st1)) name = Some l)).
Proof.
  split.
  - intros E. unfold save_list. now rewrite E.
  - intros l E. cbv zeta. rewrite (save_list_known name st l E).
    cbn [fst snd with_fs lists fs console].
    do 4 (split; [reflexivity|]).
    intros Hr. unfold load_list. cbn [with_fs fs fst snd set_list lists].
    rewrite Hr, dict_set_same. now split.
Qed.

Lemma get_list_unknown name (st : store) :
  lists st name = None ->
  fst (get_list name st)
  = match fs_read (fs st) (filename_of name) with
    | Some (Json (JList data)) => data
    | _ => []
    end.
Proof.
  intros E. unfold get_list, in_lists, lists_at, load_list. rewrite E.
  cbn [fst snd set_list lists]. rewrite dict_set_same.
  destruct (fs_read (fs st) (filename_of name)) as [[raw|[]]|]; reflexivity.
Qed.

(** X14.  [get_list] answers from memory when the name is known, without
    looking at the file; otherwise it loads the file, and a file that
    cannot be opened, text that is not JSON and a JSON value that is not a
    list all give the empty list.  Either way the name is known
    afterwards, and no file is written and nothing printed. *)
Theorem get_list_result (name : string) (st : store) :
  let l := fst (get_list name st) in
  let st' := snd (get_list name st) in
  (forall l0, lists st name = Some l0 -> l = l0 /\ st' = st) /\
  (lists st name = None ->
   l = match fs_read (fs st) (filename_of name) with
       | Some (Json (JList data)) => data
       | _ => []
       end) /\
  lists st' name = Some l /\
  fs st' = fs st /\ console st' = console st.
Proof.
  cbv zeta. unfold get_list, in_lists, lists_at, load_list.
  destruct (lists st name) as [l0|] eqn:E; cbn [fst snd].
  - rewrite E. split; [intros l1 [= <-]; now split|].
    split; [discriminate|]. now repeat split.
  - cbn [set_list lists fs console]. rewrite dict_set_same.
    split; [discriminate|]. split; [|now repeat split].
    intros _. destruct (fs_read (fs st) (filename_of name)) as [[raw|[]]|];
      reflexivity.
Qed.

(** X15.  [clear_list] never raises.  Afterwards the name is not in
    memory, whether or not it was, and the other names are untouched; the
    removal of the list's file was attempted once, and
    ["Remove list success!"] is printed exactly when it succeeded.  A
    [get_list] that follows does not answer from memory: it returns what
    the file system then reads under the name, [] unless that is a
    list. *)
Theorem clear_list_result (name : string) (st : store) :
  let st' := clear_list name st in
  let removed := fs_remove (fs st) (filename_of name) in
  lists st' name = None /\
  (forall k, k <> name -> lists st' k = lists st k) /\
  fs st' = fst removed /\
  console st'
  = (if snd removed then console st ++ ["Remove list success!"]
     else console st)%list /\
  fst (get_list name st')
  = match fs_read (fst removed) (filename_of name) with
    | Some (Json (JList data)) => data
    | _ => []
    end.
Proof.
  cbv zeta.
  assert (Hcore :
    lists (clear_list name st) name = None /\
    (forall k, k <> name -> lists (clear_list name st) k = lists st k) /\
    fs (clear_list name st) = fst (fs_remove (fs st) (filename_of name)) /\
    console (clear_list name st)
    = (if snd (fs_remove (fs st) (filename_of name))
       then console st ++ ["Remove list success!"] else console st)%list).
  { unfold clear_list, in_lists.
    destruct (lists st name) as [l|] eqn:El;
      cbn [set_list fs lists console];
      destruct (fs_remove (fs st) (filename_of name)) as [f []];
      cbn [print with_fs set_list lists fs console fst snd];
      rewrite ?dict_set_same; repeat split; try assumption;
      intros k Hk; now rewrite ?dict_set_other by exact Hk. }
  destruct Hcore as (H1 & H2 & H3 & H4).
  repeat split; try assumption.
  rewrite (get_list_unknown name (clear_list name st) H1), H3. reflexivity.
Qed.

End StoreFacts.

Section Scanning.

Context {D : Type} `{I2C D} {F : Type} `{FileSystem F}.
Variable address : Z.

Local Open Scope string_scope.

(** ** Scanning a card *)

Lemma colon_hex_not_empty b l : colon_hex (b :: l) <> "".
Proof.
  destruct l as [|c l]; [|rewrite colon_hex_cons];
    unfold colon_hex, two_hex_upper; cbn; discriminate.
Qed.

Lemma readTagID_public_shape (s : self) :
  (success (fst (readTagID address s)) = false ->
   id_formatted (fst (readTagID address s)) = "") /\
  (success (fst (readTagID address s)) = true ->
   exists id,
     Forall is_byte id /\
     (List.length id = 4%nat \/ List.length id = 7%nat \/ List.length id = 10%nat) /\
     id_integers (fst (readTagID address s)) = id /\
     id_formatted (fst (readTagID address s)) = colon_hex id).
Proof.
  rewrite readTagID_unfold. cbv zeta.
  destruct (present _); [|split; [reflexivity|discriminate]].
  destruct (success (fst (_readTagID address _))) eqn:Hs;
    [|split; [reflexivity|discriminate]].
  cbn [fst]. split; [congruence|]. intros _.
  destruct (readTagID_success address _ Hs) as (id & Hb & Hlen & ->).
  exists id. repeat split; assumption.
Qed.

Lemma scan_card_unfold (s : self) :
  scan_card address s
  = if fst (tagPresent address s)
    then (id_formatted (fst (readTagID address (snd (tagPresent address s)))),
          snd (readTagID address (snd (tagPresent address s))))
    else ("", snd (tagPresent address s)).
Proof.
  unfold scan_card. destruct (tagPresent address s) as [found s1].
  cbn [fst snd]. destruct found; [|reflexivity].
  unfold readID. destruct (readTagID address s1) as [t s2]. reflexivity.
Qed.

(** X16.  [scan_card] identifies twice, through [tagPresent] and then
    through [readID].  It returns a non-empty string exactly when both
    identifications succeed; the string is then the colon-separated
    rendering of the 4, 7 or 10 bytes of the second identification and
    parses back to them.  In every other case it returns the empty
    string. *)
Theorem scan_card_result (s : self) :
  let first := tagPresent address s in
  let second := readTagID address (snd first) in
  let uuid := fst (scan_card address s) in
  (uuid <> "" <-> fst first = true /\ success (fst second) = true) /\
  (uuid <> "" ->
   exists id,
     Forall is_byte id /\
     (List.length id = 4%nat \/ List.length id = 7%nat \/ List.length id = 10%nat) /\
     id_integers (fst second) = id /\
     uuid = colon_hex id /\ parse_uid uuid = Some id) /\
  snd (scan_card address s) = if fst first then snd second else snd first.
Proof.
  cbv zeta. rewrite scan_card_unfold.
  destruct (fst (tagPresent address s)); cbn [fst snd].
  2:{ split; [split; [congruence|intros [? _]; discriminate]|].
      split; [congruence|reflexivity]. }
  destruct (readTagID_public_shape (snd (tagPresent address s))) as [Hf Hs].
  destruct (success (fst (readTagID address _))) eqn:Hsucc.
  - destruct (Hs eq_refl) as (id & Hb & Hlen & Hid & Hfm).
    assert (Hne : id <> []) by (intros ->; cbn in Hlen; lia).
    assert (Hnz : colon_hex id <> "")
      by (destruct id; [congruence|apply colon_hex_not_empty]).
    rewrite Hfm.
    split; [split; [intros _; now split|intros _; exact Hnz]|].
    split; [|reflexivity].
    intros _. exists id.
    split; [exact Hb|]. split; [exact Hlen|]. split; [exact Hid|].
    split; [reflexivity|now apply parse_colon_hex].
  - rewrite (Hf eq_refl).
    split; [split; [congruence|intros [_ ?]; discriminate]|].
    split; [congruence|reflexivity].
Qed.

(** ** Adding, checking, removing *)

Lemma save_list_set name l (st : store) :
  save_list name (set_list name (Some l) st)
  = (with_fs (fst (fs_write (fs st) (filename_of name) (JList l)))
       (set_list name (Some l) st),
     if snd (fs_write (fs st) (filename_of name) (JList l))
     then Returns else RaisesOSError).
Proof.
  apply (save_list_known name (set_list name (Some l) st) l).
  apply dict_set_same.
Qed.

Lemma scan_and_add_card_unfold name (s : self) (st : store) :
  let st0 := if in_lists name st then st else snd (load_list name st) in
  let l := lists_at st0 name in
  let uuid := fst (scan_card address s) in
  let added := (l ++ [JStr uuid])%list in
  let written := fs_write (fs st0) (filename_of name) (JList added) in
  let st1 := with_fs (fst written) (set_list name (Some added) st0) in
  scan_and_add_card address name s st
  = (snd (scan_card address s),
     if String.eqb uuid "" then st0
     else if contains uuid l then st0
     else if snd written then print "Add card success!" st1 else st1,
     if String.eqb uuid "" then Returns
     else if contains uuid l then Returns
     else if snd written then Returns else RaisesOSError).
Proof.
  cbv zeta. unfold scan_and_add_card.
  destruct (scan_card address s) as [uuid s1]. cbn [fst snd].
  destruct (String.eqb uuid ""); [reflexivity|].
  destruct (contains uuid _); cbn [negb]; [reflexivity|].
  rewrite save_list_set.
  destruct (snd (fs_write _ _ _)); reflexivity.
Qed.

Lemma scan_and_add_card_list name (s : self) (st : store) :
  let st0 := if in_lists name st then st else snd (load_list name st) in
  let l := lists_at st0 name in
  let uuid := fst (scan_card address s) in
  uuid <> "" ->
  lists (snd (fst (scan_and_add_card address name s st))) name
  = Some (if contains uuid l then l else l ++ [JStr uuid])%list.
Proof.
  cbv zeta. intros Hne. rewrite scan_and_add_card_unfold. cbv zeta.
  cbn [fst snd]. apply String.eqb_neq in Hne. rewrite Hne.
  destruct (contains _ _).
  - apply loaded_in_lists.
  - destruct (snd (fs_write _ _ _)); cbn [print with_fs set_list lists];
      apply dict_set_same.
Qed.

(** X17.  After [scan_and_add_card] with a card read (a non-empty scan),
    the card is in the list in memory, as many times as before when it
    was there and once when it was not: no duplicate is added.  An empty
    scan changes nothing beyond the initial load.  This holds whether the
    call returns or the save raises. *)
Theorem scan_and_add_card_membership name (s : self) (st : store) :
  let st0 := if in_lists name st then st else snd (load_list name st) in
  let l := lists_at st0 name in
  let uuid := fst (scan_card address s) in
  let st' := snd (fst (scan_and_add_card address name s st)) in
  (uuid = "" -> st' = st0) /\
  (uuid <> "" ->
   contains uuid (lists_at st' name) = true /\
   occurrences uuid (lists_at st' name) = Nat.max 1 (occurrences uuid l) /\
   forall other, other <> uuid ->
     occurrences other (lists_at st' name) = occurrences other l).
Proof.
  cbv zeta. rewrite scan_and_add_card_unfold. cbv zeta. cbn [fst snd].
  set (st0 := if in_lists name st then st else snd (load_list name st)).
  set (uuid := fst (scan_card address s)).
  split.
  - intros ->. reflexivity.
  - intros Hne. apply String.eqb_neq in Hne. rewrite Hne.
    destruct (contains uuid (lists_at st0 name)) eqn:Hc.
    + split; [exact Hc|]. split; [|reflexivity].
      destruct (occurrences uuid (lists_at st0 name)) eqn:Ho; [|reflexivity].
      apply contains_occurrences in Ho. congruence.
    + match goal with
      | |- context [lists_at ?st1 name] =>
          lazymatch st1 with
          | (if _ then _ else _) =>
              assert (Hat : lists_at st1 name
                            = (lists_at st0 name ++ [JStr uuid])%list)
                by (destruct (snd (fs_write _ _ _)); unfold lists_at at 1;
                    cbn [print with_fs set_list lists];
                    now rewrite dict_set_same);
                rewrite !Hat; clear Hat
          end
      end.
      split; [|split].
      * unfold contains. rewrite existsb_app. cbn [existsb].
        rewrite json_is_self. now rewrite orb_true_r.
      * rewrite occurrences_app.
        apply contains_occurrences in Hc. rewrite Hc.
        unfold occurrences. cbn [filter]. rewrite json_is_self. reflexivity.
      * intros other Ho. rewrite occurrences_app.
        unfold occurrences at 2. cbn [filter json_is].
        apply String.eqb_neq in Ho. rewrite Ho. cbn. lia.
Qed.

(** X18.  When [scan_and_add_card] adds a card, the list in memory is the
    old list with the card appended, no other list changes, and one write
    is made, of exactly that list, under the name of the list's file.
    When the write succeeds ["Add card success!"] is printed and the call
    returns; when it raises, the [OSError] leaves the call with the card
    already in the list in memory and nothing printed.  With an empty
    scan, or a card already in the list, nothing is written, nothing is
    printed and the call returns.  The bus is left as [scan_card] left
    it. *)
Theorem scan_and_add_card_persists name (s : self) (st : store) :
  let st0 := if in_lists name st then st else snd (load_list name st) in
  let l := lists_at st0 name in
  let uuid := fst (scan_card address s) in
  let out := scan_and_add_card address name s st in
  let st' := snd (fst out) in
  let written :=
    fs_write (fs st0) (filename_of name) (JList (l ++ [JStr uuid])%list) in
  fst (fst out) = snd (scan_card address s) /\
  (uuid = "" \/ contains uuid l = true -> st' = st0 /\ snd out = Returns) /\
  (uuid <> "" -> contains uuid l = false ->
   lists st' name = Some (l ++ [JStr uuid])%list /\
   (forall k, k <> name -> lists st' k = lists st0 k) /\
   fs st' = fst written /\
   (snd written = true ->
    snd out = Returns /\
    console st' = (console st0 ++ ["Add card success!"])%list) /\
   (snd written = false ->
    snd out = RaisesOSError /\ console st' = console st0)).
Proof.
  cbv zeta. rewrite scan_and_add_card_unfold. cbv zeta. cbn [fst snd].
  split; [reflexivity|]. split.
  - intros [-> | Hc]; [now split|].
    destruct (String.eqb _ ""); [now split|]. rewrite Hc. now split.
  - intros Hne Hc. apply String.eqb_neq in Hne. rewrite Hne, Hc.
    destruct (snd (fs_write _ _ _));
      cbn [print with_fs set_list lists fs console];
      rewrite !dict_set_same;
      (split; [reflexivity|]);
      (split; [intros k Hk; now apply dict_set_other|]);
      (split; [reflexivity|]);
      split; intros Hw; try discriminate; now split.
Qed.

Lemma scan_and_check_unfold name (s : self) (st : store) :
  let st0 := if in_lists name st then st else snd (load_list name st) in
  let uuid := fst (scan_card address s) in
  scan_and_check address name s st
  = (negb (String.eqb uuid "") && contains uuid (lists_at st0 name),
     snd (scan_card address s), st0).
Proof.
  cbv zeta. unfold scan_and_check. destruct (scan_card address s) as [uuid s1].
  cbn [fst snd]. destruct (String.eqb uuid ""); reflexivity.
Qed.

(** X19.  [scan_and_check] returns true exactly when a card was read and
    its string is in the list (an empty scan gives false whatever the list
    holds); it writes no file and prints nothing, and changes the lists in
    memory only by the initial load. *)
Theorem scan_and_check_result name (s : self) (st : store) :
  let st0 := if in_lists name st then st else snd (load_list name st) in
  let uuid := fst (scan_card address s) in
  scan_and_check address name s st
  = (negb (String.eqb uuid "") && contains uuid (lists_at st0 name),
     snd (scan_card address s), st0) /\
  (fst (fst (scan_and_check address name s st)) = true <->
   uuid <> "" /\ contains uuid (lists_at st0 name) = true) /\
  fs st0 = fs st /\ console st0 = console st.
Proof.
  cbv zeta. rewrite scan_and_check_unfold. cbv zeta. cbn [fst].
  split; [reflexivity|]. split.
  - rewrite andb_true_iff, negb_true_iff, String.eqb_neq. reflexivity.
  - destruct (loaded_in_lists name st) as (_ & Hf & Hc & _). now split.
Qed.

Lemma scan_and_remove_card_unfold name (s : self) (st : store) :
  let st0 := if in_lists name st then st else snd (load_list name st) in
  let l := lists_at st0 name in
  let uuid := fst (scan_card address s) in
  let rest := list_remove uuid l in
  let removed := fs_remove (fs st0) (filename_of name) in
  let written := fs_write (fs st0) (filename_of name) (JList rest) in
  let st1 := with_fs (fst written) (set_list name (Some rest) st0) in
  scan_and_remove_card address name s st
  = (snd (scan_card address s),
     if contains uuid l then
       match rest with
       | [] => set_list name None
                 (with_fs (fst removed) (set_list name (Some []) st0))
       | _ :: _ => if snd written then print "Remove card success!" st1
                   else st1
       end
     else st0,
     if contains uuid l then
       match rest with
       | [] => Returns
       | _ :: _ => if snd written then Returns else RaisesOSError
       end
     else Returns).
Proof.
  cbv zeta. unfold scan_and_remove_card.
  destruct (scan_card address s) as [uuid s1]. cbn [fst snd].
  destruct (contains uuid _); [|reflexivity].
  destruct (list_remove uuid _) as [|e rest].
  - cbn [set_list fs]. destruct (fs_remove _ _). reflexivity.
  - rewrite save_list_set.
    destruct (snd (fs_write _ _ _)); reflexivity.
Qed.

(** X20.  [scan_and_remove_card] removes one occurrence of the scanned
    string from the list in memory when the list holds it, and touches no
    other entry.  When the list becomes empty, the removal of the list's
    file is attempted, its [OSError] caught, the name is dropped from
    memory, nothing is printed and the call returns.  Otherwise the list
    in memory holds what remains and one write is made, of exactly that,
    under the name of the list's file: when it succeeds
    ["Remove card success!"] is printed, when it raises the [OSError]
    leaves the call with the list in memory already shortened and nothing
    printed.  When the list does not hold the string nothing changes. *)
Theorem scan_and_remove_card_result name (s : self) (st : store) :
  let st0 := if in_lists name st then st else snd (load_list name st) in
  let l := lists_at st0 name in
  let uuid := fst (scan_card address s) in
  let out := scan_and_remove_card address name s st in
  let st' := snd (fst out) in
  let rest := list_remove uuid l in
  let written := fs_write (fs st0) (filename_of name) (JList rest) in
  (contains uuid l = false -> st' = st0 /\ snd out = Returns) /\
  (contains uuid l = true ->
   S (occurrences uuid rest) = occurrences uuid l /\
   (forall other, other <> uuid ->
      occurrences other rest = occurrences other l) /\
   (rest = [] ->
    lists st' name = None /\
    fs st' = fst (fs_remove (fs st0) (filename_of name)) /\
    console st' = console st0 /\ snd out = Returns) /\
   (rest <> [] ->
    lists st' name = Some rest /\
    fs st' = fst written /\
    (snd written = true ->
     snd out = Returns /\
     console st' = (console st0 ++ ["Remove card success!"])%list) /\
    (snd written = false ->
     snd out = RaisesOSError /\ console st' = console st0))).
Proof.
  cbv zeta. rewrite scan_and_remove_card_unfold. cbv zeta. cbn [fst snd].
  split.
  - intros Hc. rewrite Hc. now split.
  - intros Hc. rewrite Hc.
    destruct (list_remove_occurrences _ _ Hc) as [H1 H2].
    split; [exact H1|]. split; [exact H2|].
    destruct (list_remove _ _) as [|e rest].
    + split; [|congruence]. intros _.
      cbn [with_fs set_list lists fs console]. rewrite dict_set_same.
      now repeat split.
    + split; [discriminate|]. intros _.
      destruct (snd (fs_write _ _ _));
        cbn [print with_fs set_list lists fs console];
        rewrite !dict_set_same;
        (split; [reflexivity|]); (split; [reflexivity|]);
        split; intros Hw; try discriminate; now split.
Qed.

(** ** How the operations compose *)

(** X21.  A card that [scan_and_add_card] has read is accepted by a
    [scan_and_check] of the same list that reads the same card, whether
    the add returned or its save raised. *)
Theorem add_then_check name (s : self) (st : store) :
  let added := fst (scan_and_add_card address name s st) in
  fst (scan_card address s) <> "" ->
  fst (scan_card address (fst added)) = fst (scan_card address s) ->
  fst (fst (scan_and_check address name (fst added) (snd added))) = true.
Proof.
  cbv zeta. intros Hne Esame.
  pose proof (scan_and_add_card_list name s st Hne) as Hl. cbv zeta in Hl.
  set (added := fst (scan_and_add_card address name s st)) in *.
  set (l := lists_at (if in_lists name st then st
                      else snd (load_list name st)) name) in *.
  assert (Hin : in_lists name (snd added) = true)
    by (unfold in_lists; now rewrite Hl).
  assert (Hat : lists_at (snd added) name
                = if contains (fst (scan_card address s)) l then l
                  else (l ++ [JStr (fst (scan_card address s))])%list)
    by (unfold lists_at; now rewrite Hl).
  rewrite scan_and_check_unfold. cbv zeta. cbn [fst].
  rewrite Esame, Hin, Hat.
  apply String.eqb_neq in Hne. rewrite Hne. cbn [negb andb].
  destruct (contains _ l) eqn:Hc; [exact Hc|].
  unfold contains. rewrite existsb_app. cbn [existsb].
  now rewrite json_is_self, orb_true_r.
Qed.

(** X22.  Adding a card that was not in the list and then removing the
    same card gives the list back in memory when the list was not empty,
    the remove writing that list under the name of the list's file; when
    the list was empty the remove drops the name from memory and attempts
    to remove the file instead of leaving an empty list.  This holds
    whether or not the writes succeed. *)
Theorem add_then_remove name (s : self) (st : store) :
  let st0 := if in_lists name st then st else snd (load_list name st) in
  let l := lists_at st0 name in
  let uuid := fst (scan_card address s) in
  let added := fst (scan_and_add_card address name s st) in
  let out := scan_and_remove_card address name (fst added) (snd added) in
  let st2 := snd (fst out) in
  uuid <> "" -> contains uuid l = false ->
  fst (scan_card address (fst added)) = uuid ->
  (l <> [] ->
   lists st2 name = Some l /\
   fs st2 = fst (fs_write (fs (snd added)) (filename_of name) (JList l))) /\
  (l = [] ->
   lists st2 name = None /\
   fs st2 = fst (fs_remove (fs (snd added)) (filename_of name)) /\
   snd out = Returns).
Proof.
  cbv zeta. intros Hne Hc Esame.
  pose proof (scan_and_add_card_list name s st Hne) as Hl. cbv zeta in Hl.
  rewrite Hc in Hl.
  set (added := fst (scan_and_add_card address name s st)) in *.
  set (l := lists_at (if in_lists name st then st
                      else snd (load_list name st)) name) in *.
  set (uuid := fst (scan_card address s)) in *.
  assert (Hin : in_lists name (snd added) = true)
    by (unfold in_lists; now rewrite Hl).
  assert (Hat : lists_at (snd added) name = (l ++ [JStr uuid])%list)
    by (unfold lists_at; now rewrite Hl).
  assert (Hc' : contains uuid (l ++ [JStr uuid]) = true).
  { unfold contains. rewrite existsb_app. cbn [existsb].
    now rewrite json_is_self, orb_true_r. }
  rewrite scan_and_remove_card_unfold. cbv zeta. cbn [fst snd].
  rewrite Hin, Hat, Esame, Hc', (list_remove_appended uuid l Hc).
  destruct l as [|e l'].
  - split; [congruence|]. intros _.
    cbn [with_fs set_list lists fs]. rewrite dict_set_same. now repeat split.
  - split; [|discriminate]. intros _.
    destruct (snd (fs_write _ _ _));
      cbn [print with_fs set_list lists fs]; rewrite dict_set_same;
      now split.
Qed.

End Scanning.

(** ** The further properties on concrete inputs *)

Lemma tocard_notag_transceive_only_witness :
  let out := _tocard _I2C_ADDRESS _CMD_TRANCEIVE [0x26] (sim_of script_timer) in
  out = (NOTAGERR, [], 0, snd out) /\
  (_CMD_TRANCEIVE = _CMD_TRANCEIVE /\ @nil Z = [] /\ 0 = 0).
Proof.
  intros out.
  assert (E : out = (NOTAGERR, [], 0, snd out)) by (vm_compute; reflexivity).
  split; [exact E|].
  exact (tocard_notag_transceive_only _I2C_ADDRESS _ _ _ _ _ _ _ E eq_refl).
Defined.

Lemma tocard_response_witness :
  let out := _tocard _I2C_ADDRESS _CMD_TRANCEIVE [0x26] (sim_of atqa_reply) in
  out = (OK, [0x04; 0x00], 16, snd out) /\
  (1 <= List.length [0x04; 0x00] <= 16)%nat /\
  Forall is_byte [0x04; 0x00] /\ -7 <= 16 <= 2040.
Proof.
  intros out.
  assert (E : out = (OK, [0x04; 0x00], 16, snd out)) by (vm_compute; reflexivity).
  split; [exact E|].
  exact (proj2 (tocard_response _I2C_ADDRESS _ _ _ _ _ _ _ E) eq_refl eq_refl).
Defined.

Lemma detectTag_present_witness :
  present (fst (_detectTag _I2C_ADDRESS (self_of (sim_of atqa_reply)))) = true.
Proof.
  pose proof (detectTag_present _I2C_ADDRESS (self_of (sim_of atqa_reply))) as Hd.
  vm_compute in Hd.
  exact (proj2 (proj1 (proj2 Hd)) (conj eq_refl eq_refl)).
Defined.

Lemma readTagID_three_levels_witness :
  fst (_readTagID _I2C_ADDRESS (sim_of script_three_levels))
  = {| success := true;
       id_integers := [0x04; 0x12; 0x34; 0x56; 0x78; 0x9A; 0xBC; 0xDE; 0xF0; 0x11];
       id_formatted := "04:12:34:56:78:9A:BC:DE:F0:11";
       type := "ntag" |}.
Proof.
  pose (d0 := sim_of script_three_levels).
  pose (d1 := snd (_anticoll _I2C_ADDRESS _TAG_CMD_ANTCOL1 d0)).
  pose (d2 := snd (_selectTag _I2C_ADDRESS [0x88; 0x04; 0x12; 0x34; 0xAA]
                     _TAG_CMD_ANTCOL1 d1)).
  pose (d3 := snd (_anticoll _I2C_ADDRESS _TAG_CMD_ANTCOL2 d2)).
  pose (d4 := snd (_selectTag _I2C_ADDRESS [0x88; 0x56; 0x78; 0x9A; 0x3C]
                     _TAG_CMD_ANTCOL2 d3)).
  pose (d5 := snd (_anticoll _I2C_ADDRESS _TAG_CMD_ANTCOL3 d4)).
  rewrite (readTagID_three_levels _I2C_ADDRESS d0 0x04 0x12 0x34 0xAA d1 d2
             0x56 0x78 0x9A 0x3C d3 d4 0xBC 0xDE 0xF0 0x11 0x83 d5).
  - reflexivity.
  - vm_compute. reflexivity.
  - vm_compute. reflexivity.
  - vm_compute. reflexivity.
  - vm_compute. reflexivity.
  - vm_compute. reflexivity.
Defined.

Lemma readTagID_postcondition_witness :
  let r := fst (_readTagID _I2C_ADDRESS (sim_of script_one_level)) in
  success r = true /\
  exists id,
    Forall is_byte id /\
    (List.length id = 4%nat \/ List.length id = 7%nat \/ List.length id = 10%nat) /\
    r = {| success := true; id_integers := id; id_formatted := colon_hex id;
           type := if (List.length id =? 4)%nat
                   then "classic"%string else "ntag"%string |}.
Proof.
  intros r.
  assert (Hs : success r = true) by (vm_compute; reflexivity).
  split; [exact Hs|].
  exact (proj2 (proj2 (readTagID_postcondition _I2C_ADDRESS
                         (sim_of script_one_level))) Hs).
Defined.

Lemma readTagID_public_witness :
  let s := self_of (sim_of script_identify) in
  success (fst (readTagID _I2C_ADDRESS s)) = true /\
  fst (readTagID _I2C_ADDRESS s)
  = fst (_readTagID _I2C_ADDRESS (i2c (snd (detect_retry _I2C_ADDRESS s)))).
Proof.
  intros s.
  assert (Hs : success (fst (readTagID _I2C_ADDRESS s)) = true)
    by (vm_compute; reflexivity).
  split; [exact Hs|].
  exact (proj1 (proj2 (readTagID_public _I2C_ADDRESS s)) Hs).
Defined.

Lemma readTagID_retry_witness :
  let s := self_of (sim_of script_retry) in
  let first := _detectTag _I2C_ADDRESS s in
  let second := _detectTag _I2C_ADDRESS (snd first) in
  let found := self_of (sim_of script_identify) in
  present (fst first) = false /\ present (fst second) = true /\
  detect_retry _I2C_ADDRESS s = second /\
  fst (readTagID _I2C_ADDRESS s)
  = {| success := true; id_integers := [0xDE; 0xAD; 0xBE; 0xEF];
       id_formatted := "DE:AD:BE:EF"; type := "classic" |} /\
  present (fst (_detectTag _I2C_ADDRESS found)) = true /\
  detect_retry _I2C_ADDRESS found = _detectTag _I2C_ADDRESS found /\
  fst (readTagID _I2C_ADDRESS found)
  = {| success := true; id_integers := [0xDE; 0xAD; 0xBE; 0xEF];
       id_formatted := "DE:AD:BE:EF"; type := "classic" |}.
Proof.
  intros s first second found.
  assert (H1 : present (fst first) = false) by (vm_compute; reflexivity).
  assert (H2 : present (fst second) = true) by (vm_compute; reflexivity).
  assert (H3 : present (fst (_detectTag _I2C_ADDRESS found)) = true)
    by (vm_compute; reflexivity).
  split; [exact H1|]. split; [exact H2|]. split; [|split; [|split; [|split]]].
  - exact (proj1 (proj2 (readTagID_retry _I2C_ADDRESS s)) H1).
  - rewrite (proj1 (proj2 (proj2 (readTagID_retry _I2C_ADDRESS s))) H1 H2).
    vm_compute. reflexivity.
  - exact H3.
  - exact (proj1 (proj1 (readTagID_retry _I2C_ADDRESS found) H3)).
  - rewrite (proj2 (proj1 (readTagID_retry _I2C_ADDRESS found) H3)).
    vm_compute. reflexivity.
Defined.

Lemma antennaOn_regfile_witness :
  antennaOn _I2C_ADDRESS tx_on _REG_COMMAND = tx_on _REG_COMMAND.
Proof.
  apply (proj2 (antennaOn_regfile _I2C_ADDRESS tx_on)). discriminate.
Defined.

Lemma init_address_table_witness :
  init_address _I2C_ADDRESS (Some [1; 1]) = Some 0x2F.
Proof.
  apply (proj1 (init_address_table _I2C_ADDRESS) [1; 1] 0x2F).
  exists 1, 1. repeat split; [right; reflexivity|right; reflexivity].
Defined.

Lemma init_regfile_witness :
  match __init__ tx_on _I2C_ADDRESS (Some [1; 0]) with
  | Some (a, s) =>
      init_address _I2C_ADDRESS (Some [1; 0]) = Some a /\
      i2c s _REG_T_PRESCALER = Byte.xa9
  | None => False
  end.
Proof.
  destruct (__init__ tx_on _I2C_ADDRESS (Some [1; 0])) as [[a s]|] eqn:E;
    [|vm_compute in E; discriminate].
  pose proof (init_regfile tx_on _ _ _ _ E) as Hi.
  split; [apply Hi|apply Hi].
Defined.

Lemma driver_writes_bytes_witness :
  match __init__ (sim_of []) _I2C_ADDRESS (Some [1; 0]) with
  | Some (a, s) => writes_ok (i2c s)
  | None => False
  end.
Proof.
  destruct (__init__ (sim_of []) _I2C_ADDRESS (Some [1; 0])) as [[a s]|] eqn:E;
    [|vm_compute in E; discriminate].
  exact (proj1 (driver_writes_bytes a [] "" store0)
           _I2C_ADDRESS (Some [1; 0]) s E).
Defined.


Lemma save_load_round_trip_witness :
  fst (load_list "door" (fst (save_list "door" store_both)))
  = [JStr "01:02:03:04"; JStr "DE:AD:BE:EF"] /\
  snd (save_list "door" store_locked) = RaisesOSError /\
  lists (fst (save_list "door" store_locked)) = lists store_locked.
Proof.
  pose proof (proj2 (save_load_round_trip "door" store_both)
                [JStr "01:02:03:04"; JStr "DE:AD:BE:EF"] eq_refl) as Wb.
  pose proof (proj2 (save_load_round_trip "door" store_locked)
                [JStr "01:02:03:04"] eq_refl) as Wl.
  cbv zeta in Wb, Wl.
  destruct Wb as (_ & _ & _ & _ & Hb).
  destruct Wl as (Hl & _ & _ & Hc & _).
  split; [exact (proj1 (Hb eq_refl))|].
  split; [exact Hc|exact Hl].
Defined.

Lemma get_list_result_witness :
  fst (get_list "door" store0) = [] /\
  fst (get_list "./door" store_door) = [JStr "01:02:03:04"].
Proof.
  split.
  - rewrite (proj1 (proj2 (get_list_result "door" store0)) eq_refl).
    reflexivity.
  - rewrite (proj1 (proj2 (get_list_result "./door" store_door)) eq_refl).
    reflexivity.
Defined.

Lemma clear_list_result_witness :
  lists (clear_list "door" store_both) "gate" = lists store_both "gate" /\
  console (clear_list "./door" store_both) = ["Remove list success!"%string] /\
  fst (get_list "./door" (clear_list "./door" store_both)) = [] /\
  console (clear_list "door" store_locked) = [] /\
  fst (get_list "door" (clear_list "door" store_locked))
  = [JStr "01:02:03:04"].
Proof.
  split; [|split; [|split; [|split]]].
  - apply (proj1 (proj2 (clear_list_result "door" store_both))). discriminate.
  - exact (proj1 (proj2 (proj2 (proj2 (clear_list_result "./door" store_both))))).
  - pose proof (clear_list_result "./door" store_both) as W. cbv zeta in W.
    destruct W as (Hn & _).
    rewrite (get_list_unknown "./door" (clear_list "./door" store_both) Hn).
    reflexivity.
  - exact (proj1 (proj2 (proj2 (proj2 (clear_list_result "door" store_locked))))).
  - rewrite (proj2 (proj2 (proj2 (proj2 (clear_list_result "door"
                                           store_locked))))).
    reflexivity.
Defined.

Lemma scan_card_result_witness :
  let uuid := fst (scan_card _I2C_ADDRESS (self_of (sim_of script_scan))) in
  uuid <> ""%string /\
  exists id,
    Forall is_byte id /\
    (List.length id = 4%nat \/ List.length id = 7%nat \/ List.length id = 10%nat) /\
    id_integers
      (fst (readTagID _I2C_ADDRESS
              (snd (tagPresent _I2C_ADDRESS (self_of (sim_of script_scan))))))
    = id /\
    uuid = colon_hex id /\ parse_uid uuid = Some id.
Proof.
  intros uuid.
  assert (Hne : uuid <> ""%string) by (vm_compute; discriminate).
  split; [exact Hne|].
  exact (proj1 (proj2 (scan_card_result _I2C_ADDRESS
                         (self_of (sim_of script_scan)))) Hne).
Defined.

Lemma scan_and_add_card_membership_witness :
  let s := self_of (sim_of script_scan) in
  fst (scan_card _I2C_ADDRESS s) <> ""%string /\
  contains (fst (scan_card _I2C_ADDRESS s))
    (lists_at (snd (fst (scan_and_add_card _I2C_ADDRESS "door" s store_door)))
       "door")
  = true /\
  contains (fst (scan_card _I2C_ADDRESS s))
    (lists_at (snd (fst (scan_and_add_card _I2C_ADDRESS "door" s store_locked)))
       "door")
  = true.
Proof.
  intros s.
  assert (Hne : fst (scan_card _I2C_ADDRESS s) <> ""%string)
    by (vm_compute; discriminate).
  split; [exact Hne|]. split.
  - exact (proj1 (proj2 (scan_and_add_card_membership _I2C_ADDRESS "door" s
                           store_door) Hne)).
  - exact (proj1 (proj2 (scan_and_add_card_membership _I2C_ADDRESS "door" s
                           store_locked) Hne)).
Defined.

Lemma scan_and_add_card_persists_witness :
  let s := self_of (sim_of script_scan) in
  let out := scan_and_add_card _I2C_ADDRESS "door" s store_door in
  let refused := scan_and_add_card _I2C_ADDRESS "door" s store_locked in
  lists (snd (fst out)) "door"
  = Some [JStr "01:02:03:04"; JStr "DE:AD:BE:EF"] /\
  snd out = Returns /\
  console (snd (fst out)) = ["Add card success!"%string] /\
  lists (snd (fst refused)) "door"
  = Some [JStr "01:02:03:04"; JStr "DE:AD:BE:EF"] /\
  snd refused = RaisesOSError /\
  console (snd (fst refused)) = [].
Proof.
  intros s out refused.
  assert (Hne : fst (scan_card _I2C_ADDRESS s) <> ""%string)
    by (vm_compute; discriminate).
  pose proof (proj2 (proj2 (scan_and_add_card_persists _I2C_ADDRESS "door" s
                              store_door)) Hne eq_refl) as Wd.
  pose proof (proj2 (proj2 (scan_and_add_card_persists _I2C_ADDRESS "door" s
                              store_locked)) Hne eq_refl) as Wl.
  destruct Wd as (Hd1 & _ & _ & Hd2 & _).
  destruct Wl as (Hl1 & _ & _ & _ & Hl2).
  destruct (Hd2 eq_refl) as [Hd3 Hd4].
  destruct (Hl2 eq_refl) as [Hl3 Hl4].
  split; [exact Hd1|]. split; [exact Hd3|]. split; [exact Hd4|].
  split; [exact Hl1|]. split; [exact Hl3|exact Hl4].
Defined.

Lemma scan_and_check_result_witness :
  fst (fst (scan_and_check _I2C_ADDRESS "door" (self_of (sim_of script_scan))
              store_both)) = true.
Proof.
  apply (proj1 (proj2 (scan_and_check_result _I2C_ADDRESS "door"
                         (self_of (sim_of script_scan)) store_both))).
  split; [vm_compute; discriminate|vm_compute; reflexivity].
Defined.

Lemma scan_and_remove_card_result_witness :
  let s := self_of (sim_of script_scan) in
  let out := scan_and_remove_card _I2C_ADDRESS "door" s store_both in
  lists (snd (fst out)) "door" = Some [JStr "01:02:03:04"] /\
  snd out = Returns /\
  console (snd (fst out)) = ["Remove card success!"%string].
Proof.
  intros s out.
  pose proof (proj2 (scan_and_remove_card_result _I2C_ADDRESS "door" s
                       store_both) eq_refl) as W.
  destruct W as (_ & _ & _ & W).
  assert (Hrest : list_remove (fst (scan_card _I2C_ADDRESS s))
                    (lists_at store_both "door") <> [])
    by (vm_compute; discriminate).
  destruct (W Hrest) as (H1 & _ & H2 & _).
  destruct (H2 eq_refl) as [H3 H4].
  split; [exact H1|]. split; [exact H3|exact H4].
Defined.

Lemma add_then_check_witness :
  let s := self_of (sim_of script_scan_twice) in
  let added := fst (scan_and_add_card _I2C_ADDRESS "door" s store0) in
  fst (fst (scan_and_check _I2C_ADDRESS "door" (fst added) (snd added))) = true.
Proof.
  intros s added.
  apply (add_then_check _I2C_ADDRESS "door" s store0).
  - vm_compute. discriminate.
  - vm_compute. reflexivity.
Defined.

Lemma add_then_remove_witness :
  let s := self_of (sim_of script_scan_twice) in
  let added := fst (scan_and_add_card _I2C_ADDRESS "door" s store_door) in
  lists (snd (fst (scan_and_remove_card _I2C_ADDRESS "door" (fst added)
                     (snd added)))) "door"
  = Some [JStr "01:02:03:04"].
Proof.
  intros s added.
  refine (proj1 (proj1 (add_then_remove _I2C_ADDRESS "door" s store_door _ _ _) _)).
  - vm_compute. discriminate.
  - vm_compute. reflexivity.
  - vm_compute. reflexivity.
  - vm_compute. discriminate.
Defined.

(** ** Setting and clearing register flags *)

Lemma byte_of_Z_value z : is_byte z -> Z.of_N (Byte.to_N (byte_of_Z z)) = z.
Proof.
  intros [Hlo Hhi]. unfold byte_of_Z.
  destruct (Byte.of_N (Z.to_N z)) as [b|] eqn:E.
  - apply Byte.to_of_N in E. rewrite E. lia.
  - apply Byte.of_N_None_iff in E. lia.
Qed.

(** X23.  On a register file, [_sflags] leaves in the register its old
    value with the bits of a byte mask set, [_cflags] its old value with
    the bits of the mask cleared, and neither changes another register. *)
Theorem flags_regfile (address : Z) (m : regfile) (reg mask : Z) :
  let v := Z.of_N (Byte.to_N (m reg)) in
  (is_byte mask ->
   Z.of_N (Byte.to_N (_sflags address reg mask m reg)) = Z.lor v mask) /\
  Z.of_N (Byte.to_N (_cflags address reg mask m reg)) = Z.land v (Z.lnot mask) /\
  (forall r, r <> reg ->
     _sflags address reg mask m r = m r /\ _cflags address reg mask m r = m r).
Proof.
  cbv zeta. unfold _sflags, _cflags, _wreg, _rreg.
  cbn [readfrom_mem writeto_mem regfile_I2C].
  assert (Hv : is_byte (Z.of_N (Byte.to_N (m reg)))).
  { pose proof (Byte.to_N_bounded (m reg)). unfold is_byte. lia. }
  rewrite Z.eqb_refl. split; [|split].
  - intros Hm. apply byte_of_Z_value. now apply lor_byte.
  - apply byte_of_Z_value. now apply land_byte.
  - intros r Hr. apply Z.eqb_neq in Hr. rewrite Hr. now split.
Qed.

Lemma flags_regfile_witness :
  Z.of_N (Byte.to_N (_sflags _I2C_ADDRESS _REG_FIFO_LEVEL 0x80 tx_on
                       _REG_FIFO_LEVEL)) = 0x80.
Proof.
  apply (proj1 (flags_regfile _I2C_ADDRESS tx_on _REG_FIFO_LEVEL 0x80)).
  unfold is_byte. lia.
Defined.
